(** * achievement-viewer: data reconciliation and comparison engine

    A shallow embedding of the loader (GameLoader: [loadGameDataWithCache],
    [loadGamesFromAppIds], [loadGamesFromData], [processGameData]), of the
    hub's per-profile counting ([loadGameData]) and of the comparator
    (GameCompare.js: [compareAchievements], [getComparisonStats]), with the
    properties of the specification stated and proved over it. *)

From Stdlib Require Import List String Ascii Bool ZArith Lia Floats.
From Stdlib Require Import Decimal DecimalString.
Import ListNotations.
Local Open Scope string_scope.
Local Open Scope list_scope.

Set Implicit Arguments.
Set Warnings "-register-all".

(** ** JavaScript values

    Everything the code handles comes out of [JSON.parse] or is built from
    such values, so a value is [undefined] or a JSON value.  Numbers are
    IEEE doubles, as in JavaScript.  An object is the list of its own
    properties in enumeration order (the order of [for..in] and
    [Object.keys]); [JSON.parse] makes [__proto__] an own property like
    any other.  The one object of the program that gets another prototype
    than [Object.prototype] is the [converted] of the legacy conversion,
    when [converted['__proto__'] = {...}] runs: [VInh own inherited] is an
    object with the own properties [own] whose prototype is a plain
    object with the properties [inherited]. *)

Module JS.

Inductive value : Type :=
| VUndef : value
| VNull : value
| VBool : bool -> value
| VNum : float -> value
| VStr : string -> value
| VArr : list value -> value
| VObj : list (string * value) -> value
| VInh : list (string * value) -> list (string * value) -> value.

Definition obj : Type := list (string * value).

(** Evaluation either completes with a value or throws. *)
Inductive result (A : Type) : Type :=
| Ok : A -> result A
| Throw : result A.
Arguments Ok {A} _.
Arguments Throw {A}.

Definition bind {A B : Type} (r : result A) (k : A -> result B) : result B :=
  match r with
  | Ok a => k a
  | Throw => Throw
  end.

Notation "x <- r ;; k" := (bind r (fun x => k))
  (at level 61, r at next level, right associativity).

(** ToBoolean. *)
Definition truthy (v : value) : bool :=
  match v with
  | VUndef | VNull => false
  | VBool b => b
  | VNum f => negb (PrimFloat.eqb f 0%float || PrimFloat.is_nan f)
  | VStr s => negb (String.eqb s "")
  | VArr _ | VObj _ | VInh _ _ => true
  end.

(** [a || b] on values already evaluated (every right operand in the
    modelled code is a property read or a literal, so evaluating it early
    changes nothing). *)
Definition or_ (a b : value) : value := if truthy a then a else b.

(** [v === true] and [v === 1]. *)
Definition is_true (v : value) : bool :=
  match v with
  | VBool b => b
  | _ => false
  end.

Definition is_one (v : value) : bool :=
  match v with
  | VNum f => PrimFloat.eqb f 1%float
  | _ => false
  end.

Definition is_array (v : value) : bool :=
  match v with
  | VArr _ => true
  | _ => false
  end.

(** *** Property keys

    An array index is a canonical numeric string below 2^32 - 1.  An
    object enumerates its array-index keys first, in ascending order, then
    the other keys in the order they were created. *)

Definition digit_of (c : ascii) : option N :=
  let n := N_of_ascii c in
  if ((48 <=? n) && (n <=? 57))%N then Some (n - 48)%N else None.

Fixpoint digits_value (s : string) (acc : N) : option N :=
  match s with
  | EmptyString => Some acc
  | String c s' =>
      match digit_of c with
      | Some d => digits_value s' (10 * acc + d)%N
      | None => None
      end
  end.

Definition array_index (s : string) : option N :=
  match s with
  | EmptyString => None
  | String "0" EmptyString => Some 0%N
  | String "0" _ => None
  | _ =>
      match digits_value s 0 with
      | Some n => if (n <? 2 ^ 32 - 1)%N then Some n else None
      | None => None
      end
  end.

Fixpoint lookup (k : string) (o : obj) : value :=
  match o with
  | [] => VUndef
  | (k', v) :: o' => if String.eqb k k' then v else lookup k o'
  end.

Fixpoint has_key (k : string) (o : obj) : bool :=
  match o with
  | [] => false
  | (k', _) :: o' => String.eqb k k' || has_key k o'
  end.

Fixpoint replace_prop (k : string) (v : value) (o : obj) : obj :=
  match o with
  | [] => []
  | (k', v') :: o' =>
      if String.eqb k k' then (k', v) :: o' else (k', v') :: replace_prop k v o'
  end.

(** Where a new array-index key [n] goes: before the first key that is not
    an array index or is a greater one. *)
Fixpoint insert_index (n : N) (k : string) (v : value) (o : obj) : obj :=
  match o with
  | [] => [(k, v)]
  | (k', v') :: o' =>
      match array_index k' with
      | Some m =>
          if (m <? n)%N then (k', v') :: insert_index n k v o'
          else (k, v) :: o
      | None => (k, v) :: o
      end
  end.

(** [o[k] = v] on the own properties [o], for a key other than
    [__proto__]: the value of a key the object has is replaced where it
    is, a new key is added (a property inherited from a plain object does
    not stand in the way). *)
Definition obj_set (k : string) (v : value) (o : obj) : obj :=
  if has_key k o then replace_prop k v o
  else
    match array_index k with
    | Some n => insert_index n k v o
    | None => o ++ [(k, v)]
    end.

(** *** Property reads

    [props_of v] lists the properties of [v] that [for..in] visits, in
    its order: those of an object, the elements of an array under their
    indices, the characters of a string under theirs (a string is a byte
    string here, so a character is a byte); numbers and booleans have
    none.  An object with a prototype of its own has its own properties
    first, then those of the prototype that it does not shadow.  For a
    value out of [JSON.parse] these are also the keys of [Object.keys].
    The non-enumerable built-ins of [Object.prototype] and the like
    ([length], [constructor], [__proto__], ...) are not listed: the code
    reads them only through a data-supplied key, and then only reads from
    the result the fields [earned], [unlocked], [achieved], [earned_time],
    [unlock_time] and [unlocktime], which no built-in has, so that the
    outcome is the one of [undefined]. *)

Definition index_key (i : nat) : string :=
  NilEmpty.string_of_uint (Nat.to_uint i).

Fixpoint indexed {A : Type} (f : A -> value) (i : nat) (l : list A) : obj :=
  match l with
  | [] => []
  | x :: l' => (index_key i, f x) :: indexed f (S i) l'
  end.

Definition props_of (v : value) : obj :=
  match v with
  | VObj o => o
  | VArr l => indexed (fun x => x) 0 l
  | VStr s => indexed (fun c => VStr (String c EmptyString)) 0 (list_ascii_of_string s)
  | VInh own inherited =>
      own ++ filter (fun kv => negb (has_key (fst kv) own)) inherited
  | _ => []
  end.

Definition keys_of (v : value) : list string := map fst (props_of v).

Definition nullish (v : value) : bool :=
  match v with
  | VUndef | VNull => true
  | _ => false
  end.

(** What a read of [k] finds on a value that is neither [null] nor
    [undefined].  On an object with a prototype of its own, a key that
    neither the object nor the prototype has reads [undefined], but for
    [__proto__], which reads the prototype. *)
Definition read (v : value) (k : string) : value :=
  match v with
  | VInh _ inherited =>
      if has_key k (props_of v) then lookup k (props_of v)
      else if String.eqb k "__proto__" then VObj inherited
      else VUndef
  | _ => lookup k (props_of v)
  end.

(** [v.k] and [v[k]]: a TypeError on [null] and [undefined]. *)
Definition get (v : value) (k : string) : result value :=
  if nullish v then Throw else Ok (read v k).

(** [v?.k]. *)
Definition get_opt (v : value) (k : string) : value :=
  if nullish v then VUndef else read v k.

(** Whether [ToPrimitive] completes on [v], as [ToString], [ToNumber] and
    [ToPropertyKey] need it to.  No property of a JSON value is callable,
    so an object converts through [Object.prototype.toString] unless a
    property [toString] hides it, and then throws; an array converts
    through [join], which converts the elements that are neither [null]
    nor [undefined]. *)
Fixpoint convertible (v : value) : bool :=
  match v with
  | VObj o => negb (has_key "toString" o)
  | VInh own inherited =>
      negb (has_key "toString" own || has_key "toString" inherited)
  | VArr l =>
      (fix all (l : list value) : bool :=
         match l with
         | [] => true
         | e :: l' => convertible e && all l'
         end) l
  | _ => true
  end.

(** [hay.includes(needle)] on strings. *)
Fixpoint is_substring (needle hay : string) : bool :=
  String.prefix needle hay
  || match hay with
     | EmptyString => false
     | String _ hay' => is_substring needle hay'
     end.

Definition is_key (key : string) (v : value) : bool :=
  match v with
  | VStr s => String.eqb s key
  | _ => false
  end.

(** [bl.includes(key)] for a string [key]: membership in an array, the
    substring test on a string, and a TypeError on anything else (no
    other JSON value has a callable [includes]). *)
Definition includes (bl : value) (key : string) : result bool :=
  match bl with
  | VArr l => Ok (existsb (is_key key) l)
  | VStr s => Ok (is_substring key s)
  | _ => Throw
  end.

End JS.

Import JS.

(** ** Built-ins left to the JavaScript runtime

    [ToString] gives the string a value that is no string converts to
    (property-key coercion, [String(x)], [x.toString()]) and [ToNumber]
    the number a string, array or object converts to (an operand of [<]),
    where the conversion completes; [parseInt] answers [None] for NaN.
    [match_last_updated text] is the first group of
    [text.match(/"last_updated":\s*(\d+)/)], the text being what
    [text()] makes of the body, and [None] where there is no match. *)

Class Runtime : Type := {
  ToString : value -> string;
  ToNumber : value -> float;
  JSON_parse : string -> option value;
  JSON_stringify : value -> string;
  parseInt : string -> option Z;
  match_last_updated : string -> option string
}.

Definition to_string {RT : Runtime} (v : value) : string :=
  match v with
  | VStr s => s
  | _ => ToString v
  end.

(** [String(v)], [v.toString()] and the coercion of [v] to a property
    key: a TypeError where [v] does not convert to a primitive. *)
Definition js_string {RT : Runtime} (v : value) : result string :=
  if convertible v then Ok (to_string v) else Throw.

(** ** Canonical records (GameLoader) *)

Record achievement : Type := {
  apiname : string;
  name : value;
  description : value;
  hidden : value;
  icon : value;
  icongray : value;
  unlocked : value;
  unlocktime : value;
  rarity : value;
  group : value
}.

Record game : Type := {
  appId : string;
  gameName : value;
  gameIcon : value;
  achievements : list achievement;
  usesDb : value;
  platform : value
}.

(** [gamesData]: a [Map] keyed by appId, as the list of its entries in
    insertion order. *)
Definition games_map : Type := list (string * game).

Fixpoint map_has (k : string) (m : games_map) : bool :=
  match m with
  | [] => false
  | (k', _) :: m' => String.eqb k k' || map_has k m'
  end.

Fixpoint map_get (k : string) (m : games_map) : option game :=
  match m with
  | [] => None
  | (k', g) :: m' => if String.eqb k k' then Some g else map_get k m'
  end.

Fixpoint map_replace (k : string) (g : game) (m : games_map) : games_map :=
  match m with
  | [] => []
  | (k', g') :: m' =>
      if String.eqb k k' then (k', g) :: m' else (k', g') :: map_replace k g m'
  end.

(** [Map.prototype.set]: an existing key keeps its entry's place and takes
    the new value; a new key is appended. *)
Definition map_set (k : string) (g : game) (m : games_map) : games_map :=
  if map_has k m then map_replace k g m else m ++ [(k, g)].

(** ** processGameData *)

(** [userAch.earned || userAch.unlocked || userAch.achieved || false] *)
Definition unlocked_of (userAch : value) : result value :=
  earned <- get userAch "earned";;
  unlocked_ <- get userAch "unlocked";;
  achieved <- get userAch "achieved";;
  Ok (or_ (or_ (or_ earned unlocked_) achieved) (VBool false)).

(** [userAch.earned_time || userAch.unlock_time || userAch.unlocktime || 0] *)
Definition unlocktime_of (userAch : value) : result value :=
  earned_time <- get userAch "earned_time";;
  unlock_time <- get userAch "unlock_time";;
  unlocktime_ <- get userAch "unlocktime";;
  Ok (or_ (or_ (or_ earned_time unlock_time) unlocktime_) (VNum 0%float)).

(** The record pushed in the schema branch, for schema entry [achInfo] and
    user-state entry [userAch]. *)
Definition schema_achievement (key : string) (achInfo userAch : value)
  : result achievement :=
  name_ <- get achInfo "name";;
  description_ <- get achInfo "description";;
  hidden_ <- get achInfo "hidden";;
  icon_ <- get achInfo "icon";;
  icongray_ <- get achInfo "icongray";;
  unl <- (if truthy userAch then unlocked_of userAch else Ok (VBool false));;
  time <- (if truthy userAch then unlocktime_of userAch else Ok (VNum 0%float));;
  percent <- get achInfo "percent";;
  group_ <- get achInfo "group";;
  Ok {| apiname := key;
        name := or_ name_ (VStr key);
        description := or_ description_ (VStr "");
        hidden := or_ hidden_ (VBool false);
        icon := or_ icon_ (VStr "");
        icongray := or_ (or_ icongray_ icon_) (VStr "");
        unlocked := unl;
        unlocktime := time;
        rarity := or_ percent VNull;
        group := or_ group_ VNull |}.

(** The record pushed in the other branch, from the user-state entry
    [ach] alone. *)
Definition save_achievement (key : string) (ach : value) : result achievement :=
  name_ <- get ach "name";;
  displayName <- get ach "displayName";;
  description_ <- get ach "description";;
  desc <- get ach "desc";;
  hidden_ <- get ach "hidden";;
  icon_ <- get ach "icon";;
  icongray_ <- get ach "icongray";;
  icon_gray <- get ach "icon_gray";;
  unl <- unlocked_of ach;;
  time <- unlocktime_of ach;;
  percent <- get ach "percent";;
  group_ <- get ach "group";;
  Ok {| apiname := key;
        name := or_ (or_ name_ displayName) (VStr key);
        description := or_ (or_ description_ desc) (VStr "");
        hidden := or_ hidden_ (VBool false);
        icon := or_ icon_ (VStr "");
        icongray := or_ (or_ (or_ icongray_ icon_gray) icon_) (VStr "");
        unlocked := unl;
        unlocktime := time;
        rarity := or_ percent VNull;
        group := or_ group_ VNull |}.

(** [for (let key in ...) { if (blacklist.includes(key)) continue; push }] *)
Fixpoint for_in (blacklist : value) (body : string -> result achievement)
  (keys : list string) : result (list achievement) :=
  match keys with
  | [] => Ok []
  | key :: rest =>
      skip <- includes blacklist key;;
      if skip then for_in blacklist body rest
      else
        a <- body key;;
        l <- for_in blacklist body rest;;
        Ok (a :: l)
  end.

(** [gameInfo && gameInfo.achievements] *)
Definition schema_of (gameInfo : value) : value :=
  if truthy gameInfo then get_opt gameInfo "achievements" else gameInfo.

(** The default parameter [gameInfo = null]. *)
Definition default_null (v : value) : value :=
  match v with
  | VUndef => VNull
  | _ => v
  end.

(** [gameInfo?.blacklist || []] *)
Definition blacklist_of (gameInfo : value) : value :=
  or_ (get_opt gameInfo "blacklist") (VArr []).

(** [achievementsData.achievements || achievementsData] *)
Definition achData_of (achievementsData : value) : result value :=
  inner <- get achievementsData "achievements";;
  Ok (or_ inner achievementsData).

(** The achievements list [processGameData] builds. *)
Definition build_achievements (achievementsData gameInfo0 : value)
  : result (list achievement) :=
  let gameInfo := default_null gameInfo0 in
  let blacklist := blacklist_of gameInfo in
  achData <- achData_of achievementsData;;
  if truthy (schema_of gameInfo) then
    for_in blacklist
      (fun key =>
         achInfo <- get (schema_of gameInfo) key;;
         userAch <- get achData key;;
         schema_achievement key achInfo userAch)
      (keys_of (schema_of gameInfo))
  else
    for_in blacklist
      (fun key => ach <- get achData key;; save_achievement key ach)
      (keys_of achData).

Definition processGameData (appId : string) (achievementsData gameInfo0 : value)
  (gamesData : games_map) : result games_map :=
  let gameInfo := default_null gameInfo0 in
  achs <- build_achievements achievementsData gameInfo0;;
  Ok (map_set appId
        {| appId := appId;
           gameName := or_ (get_opt gameInfo "name") (VStr ("Game " ++ appId));
           gameIcon := or_ (get_opt gameInfo "icon") (VStr "");
           achievements := achs;
           usesDb := or_ (get_opt gameInfo "uses_db") (VBool false);
           platform := or_ (get_opt gameInfo "platform") VNull |}
        gamesData).

(** ** The network and the local storage *)

(** What [await fetch(url)] does: it rejects, or it answers with a status
    and a body.  [text()] gives the body, [json()] parses it and throws
    when it is no JSON.  A body that fails while it is read behaves, at
    every call site, like one that is no JSON and has no match. *)
Inductive reply : Type :=
| NetworkError : reply
| Response : Z -> string -> reply.

Definition ok (status : Z) : bool := ((200 <=? status) && (status <=? 299))%Z.

Definition json {RT : Runtime} (body : string) : result value :=
  match JSON_parse body with
  | Some v => Ok v
  | None => Throw
  end.

(** ** loadGamesFromAppIds *)

(** The legacy conversion: [Array.isArray(achievementsData)] and the loop
    filling [converted], which starts as [{}].  [converted] is kept as
    its own properties and the properties of its prototype where
    [converted['__proto__'] = {...}] has replaced it; that assignment adds
    no own property. *)
Definition convert_entry {RT : Runtime} (converted : result (obj * option obj))
  (ach : value) : result (obj * option obj) :=
  c <- converted;;
  apiname_ <- get ach "apiname";;
  if truthy apiname_ then
    achieved <- get ach "achieved";;
    unlocktime_ <- get ach "unlocktime";;
    key <- js_string apiname_;;
    let entry := [("earned", VBool (is_one achieved));
                  ("earned_time", or_ unlocktime_ (VNum 0%float))] in
    if String.eqb key "__proto__" then Ok (fst c, Some entry)
    else Ok (obj_set key (VObj entry) (fst c), snd c)
  else Ok c.

Definition convert_legacy {RT : Runtime} (achievementsData : value) : result value :=
  match achievementsData with
  | VArr l =>
      c <- fold_left convert_entry l (Ok ([], None));;
      Ok (match snd c with
          | None => VObj (fst c)
          | Some inherited => VInh (fst c) inherited
          end)
  | _ => Ok achievementsData
  end.

(** The replies one appId gets: [achievements.json], the [.db] file asked
    for when the first answer is not ok, and [game-info.json]. *)
Record app_replies : Type := {
  achievements_json : reply;
  db_file : reply;
  game_info_json : reply
}.

(** The body of a reply for the achievements, [None] where the loop
    [continue]s, [Throw] where fetching rejects. *)
Definition ach_body (r : app_replies) : result (option string) :=
  match achievements_json r with
  | NetworkError => Throw
  | Response s b =>
      if ok s then Ok (Some b)
      else
        match db_file r with
        | NetworkError => Throw
        | Response s' b' => if ok s' then Ok (Some b') else Ok None
        end
  end.

(** [gameInfo], with its own try/catch. *)
Definition fetch_game_info {RT : Runtime} (r : reply) : value :=
  match r with
  | NetworkError => VNull
  | Response s b =>
      if ok s then
        match json b with
        | Ok v => v
        | Throw => VNull
        end
      else VNull
  end.

(** One turn of the loop; what throws inside is caught and logged. *)
Definition load_app {RT : Runtime} (gamesData : games_map)
  (app : string * app_replies) : games_map :=
  let (appId, r) := app in
  match
    (body <- ach_body r;;
     match body with
     | None => Ok gamesData
     | Some b =>
         achievementsData <- json b;;
         converted <- convert_legacy achievementsData;;
         processGameData appId converted
           (fetch_game_info (game_info_json r)) gamesData
     end)
  with
  | Ok m => m
  | Throw => gamesData
  end.

Definition loadGamesFromAppIds {RT : Runtime} (apps : list (string * app_replies))
  (gamesData : games_map) : games_map :=
  fold_left load_app apps gamesData.

(** ** loadGamesFromData *)

(** One turn of the loop, on [gameDataList[i]]. *)
Definition load_game_data {RT : Runtime} (gameData : value) (gamesData : games_map)
  : result games_map :=
  appid <- get gameData "appid";;
  id <- js_string appid;;
  achs <- get gameData "achievements";;
  info <- get gameData "info";;
  processGameData id achs info gamesData.

(** The loop stops at the first turn that throws; the collection then
    holds what the turns before it have set. *)
Fixpoint loadGamesFromData {RT : Runtime} (gameDataList : list value)
  (gamesData : games_map) : result unit * games_map :=
  match gameDataList with
  | [] => (Ok tt, gamesData)
  | gameData :: rest =>
      match load_game_data gameData gamesData with
      | Ok m => loadGamesFromData rest m
      | Throw => (Throw, gamesData)
      end
  end.

(** ** loadGameDataWithCache *)

(** The two [localStorage] items of the loader. *)
Record storage : Type := {
  cached_timestamp : option string;
  cached_games : option string
}.

(** What the loader meets: the storage, the answer to the request with the
    [Range] header, the answer to the request without it, the clock
    ([Date.now()], in milliseconds) and whether [setItem] accepts a value
    or throws for lack of room. *)
Record world : Type := {
  store : storage;
  range_reply : reply;
  full_reply : reply;
  now_ms : Z;
  has_room : string -> bool
}.

Inductive request : Type :=
| RangeRequest : request
| FullRequest : request.

Definition CACHE_MAX_AGE : Z := 60 * 60 * 1000.

(** The quoted key of the manifest, for the sample texts. *)
Definition quote : ascii := ascii_of_nat 34.

Definition last_updated_key : string :=
  String quote ("last_updated" ++ String quote ":").

Definition truthy_item (item : option string) : bool :=
  match item with
  | Some s => negb (String.eqb s "")
  | None => false
  end.

Definition item_is (item : option string) (s : string) : bool :=
  match item with
  | Some s' => String.eqb s s'
  | None => false
  end.

Definition item_text (item : option string) : string :=
  match item with
  | Some s => s
  | None => ""
  end.

(** Step 1, the smart check, with its own try/catch. *)
Inductive smart_check : Type :=
| ServeCache : value -> smart_check
| FullResponse : value -> smart_check
| NeedsFullFetch : smart_check.

Definition smartCheck {RT : Runtime} (w : world) : smart_check :=
  match range_reply w with
  | NetworkError => NeedsFullFetch
  | Response status text =>
      if (status =? 206)%Z then
        match match_last_updated text with
        | Some serverTimestamp =>
            if negb (String.eqb serverTimestamp "")
               && (truthy_item (cached_timestamp (store w))
                   && truthy_item (cached_games (store w))
                   && item_is (cached_timestamp (store w)) serverTimestamp)
            then
              match JSON_parse (item_text (cached_games (store w))) with
              | Some games => ServeCache games
              | None => NeedsFullFetch
              end
            else NeedsFullFetch
        | None => NeedsFullFetch
        end
      else if (status =? 200)%Z then
        match JSON_parse text with
        | Some data => FullResponse data
        | None => NeedsFullFetch
        end
      else NeedsFullFetch
  end.

(** Step 2, the full fetch. *)
Definition fullFetch {RT : Runtime} (w : world) : result value :=
  match full_reply w with
  | NetworkError => Throw
  | Response status body => if ok status then json body else Throw
  end.

(** The two wire shapes: the games and [lastUpdated] with [isNewFormat]
    ([None] for the old format).  In the current format a truthy
    [lastUpdated] goes through [new Date(lastUpdated * 1000)] for the log,
    which throws where it does not convert to a number. *)
Definition wire_shape (data : value) : result (value * option value) :=
  if is_array data then Ok (data, None)
  else
    games <- get data "games";;
    if truthy games && is_array games then
      last_updated <- get data "last_updated";;
      if truthy last_updated && negb (convertible last_updated) then Throw
      else Ok (games, Some last_updated)
    else Throw.

(** The cache update; what throws in it, [toString] or a [setItem], is
    caught and logged, and leaves what was set before it. *)
Definition updateCache {RT : Runtime} (w : world) (games : value)
  (lastUpdated : option value) : storage :=
  match lastUpdated with
  | Some t =>
      if truthy t then
        match js_string t with
        | Ok timestamp =>
            if has_room w timestamp then
              if has_room w (JSON_stringify games) then
                {| cached_timestamp := Some timestamp;
                   cached_games := Some (JSON_stringify games) |}
              else
                {| cached_timestamp := Some timestamp;
                   cached_games := cached_games (store w) |}
            else store w
        | Throw => store w
        end
      else store w
  | None => store w
  end.

(** The outer catch: the cached games when they are younger than
    [CACHE_MAX_AGE], the error again otherwise. *)
Definition fallback {RT : Runtime} (w : world) : result value :=
  if truthy_item (cached_games (store w)) && truthy_item (cached_timestamp (store w))
  then
    match parseInt (item_text (cached_timestamp (store w))) with
    | Some t =>
        if ((now_ms w / 1000 - t) * 1000 <? CACHE_MAX_AGE)%Z then
          json (item_text (cached_games (store w)))
        else Throw
    | None => Throw
    end
  else Throw.

(** What a run leaves behind: what it returns or that it throws, the
    requests it sent, in order, and the storage. *)
Record run : Type := {
  returned : result value;
  requests : list request;
  store_after : storage
}.

Definition loadGameDataWithCache {RT : Runtime} (w : world) : run :=
  match smartCheck w with
  | ServeCache games =>
      {| returned := Ok games; requests := [RangeRequest]; store_after := store w |}
  | FullResponse data =>
      match wire_shape data with
      | Ok (games, lastUpdated) =>
          {| returned := Ok games; requests := [RangeRequest];
             store_after := updateCache w games lastUpdated |}
      | Throw =>
          {| returned := fallback w; requests := [RangeRequest];
             store_after := store w |}
      end
  | NeedsFullFetch =>
      match (data <- fullFetch w;; wire_shape data) with
      | Ok (games, lastUpdated) =>
          {| returned := Ok games; requests := [RangeRequest; FullRequest];
             store_after := updateCache w games lastUpdated |}
      | Throw =>
          {| returned := fallback w; requests := [RangeRequest; FullRequest];
             store_after := store w |}
      end
  end.

(** ** init: the manifest path

    [const gameData = await loadGameDataWithCache();
     await loadGamesFromData(gameData);] *)

Definition to_number {RT : Runtime} (v : value) : float :=
  match v with
  | VUndef => PrimFloat.nan
  | VNull => 0%float
  | VBool b => if b then 1%float else 0%float
  | VNum f => f
  | _ => ToNumber v
  end.

(** The operand of [<] as a number: a TypeError where it does not
    convert to a primitive. *)
Definition js_number {RT : Runtime} (v : value) : result float :=
  if convertible v then Ok (to_number v) else Throw.

Definition float_of_nat (i : nat) : float :=
  PrimFloat.of_uint63 (Uint63.of_Z (Z.of_nat i)).

(** [v[0], v[1], ...] while [i < length], on an object; the turn that meets
    an index the object lacks throws, and the object has fewer than [fuel]
    of them. *)
Fixpoint counted (fuel i : nat) (length : float) (v : value) : list value :=
  match fuel with
  | O => []
  | S fuel' =>
      if PrimFloat.ltb (float_of_nat i) length
      then read v (index_key i) :: counted fuel' (S i) length v
      else []
  end.

(** The values [for (let i = 0; i < v.length; i++)] visits as [v[i]]. *)
Definition array_like {RT : Runtime} (v : value) : result (list value) :=
  match v with
  | VUndef | VNull => Throw
  | VArr l => Ok l
  | VStr s => Ok (map snd (props_of v))
  | VBool _ | VNum _ => Ok []
  | VObj _ | VInh _ _ =>
      length <- js_number (read v "length");;
      Ok (counted (S (List.length (props_of v))) 0 length v)
  end.

Definition init_from_manifest {RT : Runtime} (w : world) (gamesData : games_map)
  : result unit * games_map :=
  match (gameData <- returned (loadGameDataWithCache w);; array_like gameData) with
  | Ok l => loadGamesFromData l gamesData
  | Throw => (Throw, gamesData)
  end.

(** ** The hub: loadGameData *)

Record person : Type := {
  gameData : value;
  earnedAchievements : nat;
  totalGames : nat;
  perfectGames : nat;
  totalAchievements : nat
}.

(** The record every failure path leaves. *)
Definition no_games : person :=
  {| gameData := VArr []; earnedAchievements := 0; totalGames := 0;
     perfectGames := 0; totalAchievements := 0 |}.

(** [userAch && (userAch.earned === true || userAch.earned === 1)] *)
Definition has_earned (userAch : value) : bool :=
  truthy userAch
  && (let earned := get_opt userAch "earned" in is_true earned || is_one earned).

(** [keys.filter(key => !blacklist.includes(key))] *)
Fixpoint valid_keys (blacklist : value) (keys : list string) : result (list string) :=
  match keys with
  | [] => Ok []
  | key :: rest =>
      skip <- includes blacklist key;;
      l <- valid_keys blacklist rest;;
      Ok (if skip then l else key :: l)
  end.

Definition hasFullSchema (gameInfo : value) : bool :=
  truthy gameInfo
  && truthy (get_opt gameInfo "achievements")
  && (0 <? List.length (keys_of (get_opt gameInfo "achievements")))%nat.

Record counts : Type := {
  totalCount : nat;
  earnedCount : nat;
  canDeterminePerfect : bool
}.

(** One turn of [for (const g of games)]. *)
Definition count_game (g : value) : result counts :=
  info <- get g "info";;
  achs <- get g "achievements";;
  let gameInfo := or_ info g in
  let gameAchievements := or_ achs (VObj []) in
  let blacklist := or_ (get_opt gameInfo "blacklist") (VArr []) in
  if hasFullSchema gameInfo then
    validSchemaKeys <-
      valid_keys blacklist (keys_of (get_opt gameInfo "achievements"));;
    Ok {| totalCount := List.length validSchemaKeys;
          earnedCount :=
            List.length
              (filter (fun key => has_earned (lookup key (props_of gameAchievements)))
                 validSchemaKeys);
          canDeterminePerfect := true |}
  else
    let saveKeys := keys_of gameAchievements in
    Ok {| totalCount := List.length saveKeys;
          earnedCount :=
            List.length
              (filter (fun key => has_earned (lookup key (props_of gameAchievements)))
                 saveKeys);
          canDeterminePerfect := false |}.

Fixpoint count_games (games : list value) (acc : person) : result person :=
  match games with
  | [] => Ok acc
  | g :: rest =>
      c <- count_game g;;
      count_games rest
        {| gameData := gameData acc;
           earnedAchievements := earnedAchievements acc + earnedCount c;
           totalGames := totalGames acc;
           perfectGames :=
             if canDeterminePerfect c && (0 <? totalCount c)%nat
                && (earnedCount c =? totalCount c)%nat
             then S (perfectGames acc) else perfectGames acc;
           totalAchievements := totalAchievements acc + totalCount c |}
  end.

(** The games of a payload, [None] for a payload of neither shape. *)
Definition games_of (data : value) : option (list value) :=
  match data with
  | VArr l => Some l
  | _ =>
      match get_opt data "games" with
      | VArr l => Some l
      | _ => None
      end
  end.

Definition loadGameData {RT : Runtime} (r : reply) : person :=
  match r with
  | NetworkError => no_games
  | Response status body =>
      match (if ok status then json body else Ok VNull) with
      | Throw => no_games
      | Ok data =>
          if negb (truthy data) then no_games
          else
            match games_of data with
            | None => no_games
            | Some games =>
                match
                  count_games games
                    {| gameData := VArr games; earnedAchievements := 0;
                       totalGames := List.length games; perfectGames := 0;
                       totalAchievements := 0 |}
                with
                | Ok p => p
                | Throw => no_games
                end
            end
      end
  end.

(** ** GameCompare: compareAchievements and getComparisonStats *)

(** What [loadOwnGameData] hands over, as far as the comparison reads
    it. *)
Record own_data : Type := {
  achievementsData : value;
  blacklist : value
}.

(** [{...achievement, status, yourUnlockTime, theirUnlockTime}] *)
Record comparison_record : Type := {
  their : achievement;
  status : string;
  yourUnlockTime : value;
  theirUnlockTime : value
}.

Record comparison_data : Type := {
  hasData : bool;
  comparison : list comparison_record
}.

(** [achievement.unlocked === true || achievement.unlocked === 1] *)
Definition theyHave (a : achievement) : bool :=
  is_true (unlocked a) || is_one (unlocked a).

(** [ownAch ? (ownAch.earned === true || ownAch.earned === 1) : false] *)
Definition youHave (ownAch : value) : bool :=
  if truthy ownAch
  then (let earned := get_opt ownAch "earned" in is_true earned || is_one earned)
  else false.

(** [let status = 'both-locked'; if ... else if ... else if ...] *)
Definition status_of (they you : bool) : string :=
  if they && you then "both-unlocked"
  else if they && negb you then "they-only"
  else if negb they && you then "you-only"
  else "both-locked".

Definition compare_one (ownAch : value) (a : achievement) : comparison_record :=
  {| their := a;
     status := status_of (theyHave a) (youHave ownAch);
     yourUnlockTime :=
       or_ (or_ (or_ (get_opt ownAch "earned_time") (get_opt ownAch "unlock_time"))
                (get_opt ownAch "unlocktime"))
           (VNum 0%float);
     theirUnlockTime := or_ (unlocktime a) (VNum 0%float) |}.

Fixpoint compare_loop (own : own_data) (l : list achievement)
  : result (list comparison_record) :=
  match l with
  | [] => Ok []
  | a :: rest =>
      skip <- includes (blacklist own) (apiname a);;
      if skip then compare_loop own rest
      else
        ownAch <- get (achievementsData own) (apiname a);;
        cs <- compare_loop own rest;;
        Ok (compare_one ownAch a :: cs)
  end.

Definition compareAchievements (theirGame : game) (ownData : option own_data)
  : result comparison_data :=
  match ownData with
  | None => Ok {| hasData := false; comparison := [] |}
  | Some own =>
      cs <- compare_loop own (achievements theirGame);;
      Ok {| hasData := true; comparison := cs |}
  end.

Record stats : Type := {
  bothUnlocked : nat;
  youOnly : nat;
  theyOnly : nat;
  bothLocked : nat;
  yourTotal : nat;
  theirTotal : nat;
  total : nat
}.

Definition count_status (s : string) (l : list comparison_record) : nat :=
  List.length (filter (fun a => String.eqb (status a) s) l).

Definition getComparisonStats (l : list comparison_record) : stats :=
  let bothUnlocked_ := count_status "both-unlocked" l in
  let youOnly_ := count_status "you-only" l in
  let theyOnly_ := count_status "they-only" l in
  let bothLocked_ := count_status "both-locked" l in
  {| bothUnlocked := bothUnlocked_; youOnly := youOnly_; theyOnly := theyOnly_;
     bothLocked := bothLocked_;
     yourTotal := bothUnlocked_ + youOnly_;
     theirTotal := bothUnlocked_ + theyOnly_;
     total := List.length l |}.

(** ** A runtime and sample data for the examples *)

Definition sample_games : value :=
  VArr [VObj [("appid", VStr "10");
              ("achievements", VObj [("A", VObj [("earned", VBool true)])])]].

(** The first 201 bytes of two manifests, as far as they matter, and the
    first group of the match on them. *)
Definition manifest_head : string :=
  "{" ++ last_updated_key ++ " 1700000000, " ++ String quote ("games" ++ String quote ": [").

Definition newer_head : string := "{" ++ last_updated_key ++ "1700000050,".

Definition sample_match (text : string) : option string :=
  if String.eqb text manifest_head then Some "1700000000"
  else if String.eqb text newer_head then Some "1700000050"
  else None.

Definition sample_runtime : Runtime :=
  {| ToString := fun _ => "[object Object]";
     ToNumber := fun _ => PrimFloat.nan;
     JSON_parse := fun s =>
       if String.eqb s "GAMES" then Some sample_games
       else if String.eqb s "{}" then Some (VObj [])
       else None;
     JSON_stringify := fun _ => "GAMES";
     parseInt := fun s =>
       match digits_value s 0 with
       | Some n => if String.eqb s "" then None else Some (Z.of_N n)
       | None => None
       end;
     match_last_updated := sample_match |}.

Definition sample_achievement (key : string) (u : value) : achievement :=
  {| apiname := key; name := VStr key; description := VStr ""; hidden := VBool false;
     icon := VStr ""; icongray := VStr ""; unlocked := u; unlocktime := VNum 0%float;
     rarity := VNull; group := VNull |}.

Definition sample_game : game :=
  {| appId := "10"; gameName := VStr "Game 10"; gameIcon := VStr "";
     achievements :=
       [sample_achievement "X" (VBool true); sample_achievement "Y" (VNum 1%float);
        sample_achievement "Z" (VBool false); sample_achievement "W" (VBool false)];
     usesDb := VBool false; platform := VNull |}.

Definition sample_own : own_data :=
  {| achievementsData :=
       VObj [("Y", VObj [("earned", VBool true)]);
             ("Z", VObj [("earned", VNum 1%float)]);
             ("W", VObj [("earned", VBool true)])];
     blacklist := VArr [VStr "W"] |}.

(** The four statuses of the specification. *)
Definition statuses : list string :=
  ["both-unlocked"; "they-only"; "you-only"; "both-locked"].

(** The first truthy value of a chain of aliases, the default when none
    is. *)
Fixpoint first_truthy (chain : list value) (default : value) : value :=
  match chain with
  | [] => default
  | v :: rest => if truthy v then v else first_truthy rest default
  end.

Definition is_boolean (v : value) : bool :=
  match v with
  | VBool _ => true
  | _ => false
  end.

(** Scenario data: schema [{A: {name: "A", percent: 5}}], save
    [{A: {earned: true, earned_time: 1000}}]. *)
Definition schema_A : value :=
  VObj [("A", VObj [("name", VStr "A"); ("percent", VNum 5%float)])].

Definition save_A : value :=
  VObj [("A", VObj [("earned", VBool true); ("earned_time", VNum 1000%float)])].

Definition save_AB : value :=
  VObj [("A", VObj [("earned", VBool true)]);
        ("B", VObj [("achieved", VNum 1%float); ("percent", VNum 5%float);
                    ("group", VStr "DLC")])].

(** The legacy array of the scenario with a second entry, named
    [__proto__]. *)
Definition proto_array : value :=
  VArr [VObj [("apiname", VStr "B"); ("achieved", VNum 1%float);
              ("unlocktime", VNum 500%float)];
        VObj [("apiname", VStr "__proto__"); ("achieved", VNum 1%float);
              ("unlocktime", VNum 700%float)]].

(** The keyed mapping the specification gives for it, written out: each
    entry under its apiname, [earned] being [achieved === 1] and
    [earned_time] the [unlocktime].  It is what [JSON.parse] makes of the
    document with these two keys. *)
Definition proto_mapping : value :=
  VObj [("B", VObj [("earned", VBool true); ("earned_time", VNum 500%float)]);
        ("__proto__",
         VObj [("earned", VBool true); ("earned_time", VNum 700%float)])].

Definition sample_map : games_map :=
  [("7", {| appId := "7"; gameName := VStr "Seven"; gameIcon := VStr "";
            achievements := []; usesDb := VBool false; platform := VNull |});
   ("10", sample_game);
   ("12", {| appId := "12"; gameName := VStr "Twelve"; gameIcon := VStr "";
             achievements := []; usesDb := VBool false; platform := VNull |})].

(** A payload of neither wire shape: no array, and no array under
    [games]. *)
Definition malformed (data : value) : bool :=
  negb (is_array data) && negb (is_array (get_opt data "games")).

(** [data] is the payload a run gets: from the answer to the range request
    when the server sent the whole file, from the full fetch otherwise. *)
Definition fetched {RT : Runtime} (w : world) (data : value) : Prop :=
  smartCheck w = FullResponse data
  \/ (smartCheck w = NeedsFullFetch /\ fullFetch w = Ok data).

(** A storage written at 1700000000, met 100 seconds later by a server
    that honours the range request with the same timestamp and would
    answer a full request with [{}]. *)
Definition sample_world : world :=
  {| store := {| cached_timestamp := Some "1700000000"; cached_games := Some "GAMES" |};
     range_reply := Response 206 manifest_head;
     full_reply := Response 200 "{}";
     now_ms := 1700000100000;
     has_room := fun _ => true |}.

(** The same, with a newer timestamp on the server. *)
Definition stale_world : world :=
  {| store := store sample_world;
     range_reply := Response 206 newer_head;
     full_reply := Response 200 "{}";
     now_ms := 1700000100000;
     has_room := fun _ => true |}.

(** ** Further definitions for the properties *)

(** A key the array [bl] does not hold: the keys a loop with the test
    [bl.includes(key)] lets through. *)
Definition listed (bl : list value) (key : string) : bool :=
  negb (existsb (is_key key) bl).

(** The value a run of [processGameData] iterates: the schema when the
    schema branch is taken, the user state otherwise. *)
Definition iterated (achData gameInfo : value) : value :=
  if truthy (schema_of gameInfo) then schema_of gameInfo else achData.

(** A key the test [blacklist.includes(key)] lets through, whatever the
    blacklist is. *)
Definition passes (blacklist : value) (key : string) : bool :=
  match includes blacklist key with
  | Ok false => true
  | _ => false
  end.

(** A user state with a shadowed entry. *)
Definition save_null : value :=
  VObj [("A", VObj [("earned", VBool true)]); ("B", VNull)].

Definition save_times : value :=
  VObj [("A", VObj [("unlocked", VBool true); ("unlock_time", VNum 700%float);
                    ("unlocktime", VNum 900%float)])].

(** What the schema alone decides of an achievement: every field but
    [unlocked] and [unlocktime]. *)
Definition metadata (a : achievement)
  : string * value * value * value * value * value * value * value :=
  (apiname a, name a, description a, hidden a, icon a, icongray a, rarity a, group a).

Definition legacy_sample : list obj :=
  [[("apiname", VStr "B"); ("achieved", VNum 0%float)];
   [("name", VStr "no apiname")];
   [("apiname", VStr "7"); ("achieved", VNum 1%float); ("unlocktime", VNum 500%float)];
   [("apiname", VStr "B"); ("achieved", VNum 1%float); ("unlocktime", VNum 900%float)]].

(** *** The turns of the legacy conversion, entry by entry *)

(** The key [converted[ach.apiname]] goes to and the value assigned. *)
Definition legacy_key {RT : Runtime} (entry : obj) : string :=
  to_string (lookup "apiname" entry).

Definition entry_state (entry : obj) : obj :=
  [("earned", VBool (is_one (lookup "achieved" entry)));
   ("earned_time", or_ (lookup "unlocktime" entry) (VNum 0%float))].

Definition keyed_entry {RT : Runtime} (entry : obj) : string * value :=
  (legacy_key entry, VObj (entry_state entry)).

(** An entry whose turn completes: no apiname to speak of, or one that
    converts to a property key. *)
Definition coercible (entry : obj) : bool :=
  negb (truthy (lookup "apiname" entry)) || convertible (lookup "apiname" entry).

(** An entry whose turn sets an own property, and one whose turn sets the
    prototype. *)
Definition keyed {RT : Runtime} (entry : obj) : bool :=
  truthy (lookup "apiname" entry) && negb (String.eqb (legacy_key entry) "__proto__").

Definition proto_keyed {RT : Runtime} (entry : obj) : bool :=
  truthy (lookup "apiname" entry) && String.eqb (legacy_key entry) "__proto__".

(** An entry whose turn completes and leaves the prototype alone. *)
Definition own_keyed {RT : Runtime} (entry : obj) : bool :=
  negb (truthy (lookup "apiname" entry))
  || (convertible (lookup "apiname" entry)
      && negb (String.eqb (legacy_key entry) "__proto__")).

(** The own properties and the prototype of [converted] after the turns
    of [entries], all of which complete. *)
Definition own_after {RT : Runtime} (entries : list obj) (own : obj) : obj :=
  fold_left (fun o kv => obj_set (fst kv) (snd kv) o)
    (map keyed_entry (filter keyed entries)) own.

Definition proto_after {RT : Runtime} (entries : list obj) (proto : option obj)
  : option obj :=
  match find proto_keyed (List.rev entries) with
  | Some entry => Some (entry_state entry)
  | None => proto
  end.

(** A payload in the current format whose [last_updated] does not convert
    to a number. *)
Definition undated : value :=
  VObj [("last_updated", VObj [("toString", VNum 1%float)]); ("games", VArr [])].

(** The achievements of a game that the array [bl] lets through. *)
Definition compared (bl : list value) (l : list achievement) : list achievement :=
  filter (fun a => listed bl (apiname a)) l.

(** ** GameCompare: loadOwnGameData *)

(** [comparisonCache]: a [Map] from [`${ownUsername}_${appId}`] to what a
    load returned, [null] included. *)
Definition comparison_cache : Type := list (string * option own_data).

Fixpoint cache_get (k : string) (c : comparison_cache) : option (option own_data) :=
  match c with
  | [] => None
  | (k', v) :: c' => if String.eqb k k' then Some v else cache_get k c'
  end.

Fixpoint cache_replace (k : string) (v : option own_data) (c : comparison_cache)
  : comparison_cache :=
  match c with
  | [] => []
  | (k', v') :: c' =>
      if String.eqb k k' then (k', v) :: c' else (k', v') :: cache_replace k v c'
  end.

Definition cache_set (k : string) (v : option own_data) (c : comparison_cache)
  : comparison_cache :=
  match cache_get k c with
  | Some _ => cache_replace k v c
  | None => c ++ [(k, v)]
  end.

Inductive own_file : Type :=
| AchievementsFile : own_file
| DbFile : own_file
| GameInfoFile : own_file.

(** What a call leaves: what it returns ([None] for [null]), the cache,
    and the files it asked the network for, in order. *)
Record own_load : Type := {
  own_result : option own_data;
  cache_after : comparison_cache;
  files_asked : list own_file
}.

(** Both failure paths: [comparisonCache.set(cacheKey, null); return null]. *)
Definition own_failed (cacheKey : string) (cache : comparison_cache)
  (files : list own_file) : own_load :=
  {| own_result := None; cache_after := cache_set cacheKey None cache;
     files_asked := files |}.

(** From the body of the achievements file on. *)
Definition own_from_body {RT : Runtime} (cacheKey : string) (cache : comparison_cache)
  (files : list own_file) (body : string) (info : reply) : own_load :=
  match (data <- json body;; convert_legacy data) with
  | Throw => own_failed cacheKey cache files
  | Ok converted =>
      let gameInfo := fetch_game_info info in
      let result := {| achievementsData := converted;
                       blacklist := blacklist_of gameInfo |} in
      {| own_result := Some result;
         cache_after := cache_set cacheKey (Some result) cache;
         files_asked := files ++ [GameInfoFile] |}
  end.

(** [visitor] is [getVisitorUsername()], the [vs] parameter of the URL. *)
Definition loadOwnGameData {RT : Runtime} (visitor : option string) (id : string)
  (r : app_replies) (cache : comparison_cache) : own_load :=
  if truthy_item visitor then
    let cacheKey := (item_text visitor ++ "_" ++ id)%string in
    match cache_get cacheKey cache with
    | Some v => {| own_result := v; cache_after := cache; files_asked := [] |}
    | None =>
        match achievements_json r with
        | NetworkError => own_failed cacheKey cache [AchievementsFile]
        | Response s b =>
            if ok s then
              own_from_body cacheKey cache [AchievementsFile] b (game_info_json r)
            else
              match db_file r with
              | NetworkError => own_failed cacheKey cache [AchievementsFile; DbFile]
              | Response s' b' =>
                  if ok s' then
                    own_from_body cacheKey cache [AchievementsFile; DbFile] b'
                      (game_info_json r)
                  else own_failed cacheKey cache [AchievementsFile; DbFile]
              end
        end
    end
  else {| own_result := None; cache_after := cache; files_asked := [] |}.

Definition unreachable : app_replies :=
  {| achievements_json := Response 404 ""; db_file := NetworkError;
     game_info_json := NetworkError |}.

Definition reachable : app_replies :=
  {| achievements_json := Response 200 "{}"; db_file := NetworkError;
     game_info_json := Response 404 "" |}.

(** The same world with another [setItem]. *)
Definition with_room (w : world) (room : string -> bool) : world :=
  {| store := store w; range_reply := range_reply w; full_reply := full_reply w;
     now_ms := now_ms w; has_room := room |}.

(** A runtime that parses a manifest in the current format. *)
Definition manifest_runtime : Runtime :=
  {| ToString := fun _ => "[object Object]";
     ToNumber := fun _ => PrimFloat.nan;
     JSON_parse := fun s =>
       if String.eqb s "MANIFEST"
       then Some (VObj [("games", sample_games); ("last_updated", VStr "1700000050")])
       else if String.eqb s "GAMES" then Some sample_games
       else if String.eqb s "OLD" then Some (VArr [])
       else if String.eqb s "[]" then Some (VArr [])
       else None;
     JSON_stringify := fun _ => "GAMES";
     parseInt := fun _ => None;
     match_last_updated := sample_match |}.

(** The server has a newer manifest than the storage. *)
Definition update_world (room : string -> bool) : world :=
  {| store := {| cached_timestamp := Some "1700000000"; cached_games := Some "OLD" |};
     range_reply := Response 206 newer_head;
     full_reply := Response 200 "MANIFEST";
     now_ms := 1700000100000;
     has_room := room |}.

(** The next visit: the storage as the update left it, the server
    unchanged. *)
Definition next_world (s : storage) : world :=
  {| store := s;
     range_reply := Response 206 newer_head;
     full_reply := NetworkError;
     now_ms := 1700000200000;
     has_room := fun _ => true |}.

(** A server that ignores the [Range] header and sends the old format. *)
Definition ignoring_world : world :=
  {| store := {| cached_timestamp := None; cached_games := None |};
     range_reply := Response 200 "[]";
     full_reply := NetworkError;
     now_ms := 1700000100000;
     has_room := fun _ => true |}.

(** No network, and games cached 4000 seconds before. *)
Definition offline_world : world :=
  {| store := store sample_world;
     range_reply := NetworkError;
     full_reply := NetworkError;
     now_ms := 1700004000000;
     has_room := fun _ => true |}.

(** The game info the hub reads for a game: [g.info || g]. *)
Definition hub_info (g : value) : value := or_ (get_opt g "info") g.

Definition hub_manifest_runtime : Runtime :=
  {| ToString := fun _ => "[object Object]";
     ToNumber := fun _ => PrimFloat.nan;
     JSON_parse := fun s =>
       if String.eqb s "SAVES"
       then Some (VArr [VObj [("appid", VStr "10"); ("achievements", save_A);
                              ("info", VObj [("name", VStr "Ten")])];
                        VObj [("appid", VStr "12"); ("achievements", save_AB);
                              ("info", VObj [("name", VStr "Twelve")])]])
       else None;
     JSON_stringify := fun _ => "SAVES";
     parseInt := fun _ => None;
     match_last_updated := sample_match |}.

Definition schema_game : value :=
  VObj [("appid", VStr "10");
        ("achievements", save_AB);
        ("info", VObj [("achievements",
                        VObj [("A", VObj [("name", VStr "First")]);
                              ("B", VObj [("name", VStr "Second")]);
                              ("C", VObj [("name", VStr "Third")])]);
                       ("blacklist", VArr [VStr "B"])])].

Definition legacy_replies : app_replies :=
  {| achievements_json := Response 404 "";
     db_file := Response 200 "GAMES";
     game_info_json := NetworkError |}.

(** ** GameRenderer: the unlocked count

    [game.achievements.filter(a => a.unlocked).length], as [displayGames],
    [renderGamesGrid], [sortGames] and [showGameDetail] compute it. *)
Definition unlocked_count (g : game) : nat :=
  List.length (filter (fun a => truthy (unlocked a)) (achievements g)).

(** ** utils: cleanOldCaches *)

(** [localStorage], as the list of its items in the order of
    [localStorage.key(i)]. *)
Definition local_storage : Type := list (string * string).

Definition cache_key (user : string) : string := "game-data-cache-v2-" ++ user.

Definition timestamp_key (user : string) : string :=
  "game-data-last-updated-v2-" ++ user.

(** What one turn of the loop pushes to [keysToRemove]. *)
Definition keys_to_remove (user key : string) : list string :=
  (if negb (String.eqb key "") && String.prefix "game-data-cache-" key
      && negb (String.eqb key (cache_key user))
   then [key] else [])
  ++ (if negb (String.eqb key "") && String.prefix "game-data-last-updated-" key
         && negb (String.eqb key (timestamp_key user))
      then [key] else []).

(** [localStorage.removeItem(key)] *)
Definition removeItem (s : local_storage) (key : string) : local_storage :=
  filter (fun kv => negb (String.eqb (fst kv) key)) s.

(** The storage afterwards and [cleaned]. *)
Definition cleanOldCaches (user : string) (s : local_storage) : local_storage * nat :=
  let keysToRemove := flat_map (keys_to_remove user) (map fst s) in
  (fold_left removeItem keysToRemove s, List.length keysToRemove).

(** A cache item of the loader that belongs to another user. *)
Definition foreign (user key : string) : bool :=
  String.prefix "game-data-cache-" key && negb (String.eqb key (cache_key user))
  || String.prefix "game-data-last-updated-" key
     && negb (String.eqb key (timestamp_key user)).

Definition sample_storage : local_storage :=
  [("game-data-cache-v2-alice", "GAMES");
   ("forks-cache-v1", "{}");
   ("game-data-last-updated-v2-bob", "1700000000");
   ("game-data-cache-v1-alice", "[]");
   ("game-data-last-updated-v2-alice", "1700000050")].

(** * Properties *)

(** ** Errors *)

Lemma bind_Ok {A B : Type} (r : result A) (k : A -> result B) (b : B) :
  bind r k = Ok b -> exists a, r = Ok a /\ k a = Ok b.
Proof.
  destruct r as [a|]; simpl; intros H; [exists a; auto | discriminate].
Qed.

Ltac bind_inv H :=
  let a := fresh "x" in
  let Ha := fresh "E" in
  apply bind_Ok in H; destruct H as (a & Ha & H).

(** ** The comparator *)

(** Every record of the loop comes from one achievement of the game that
    the blacklist lets through, compared with the entry of the same key. *)
Lemma compare_loop_In (own : own_data) (l : list achievement) :
  forall cs, compare_loop own l = Ok cs ->
  forall r, In r cs ->
  exists a ownAch,
    In a l /\ includes (blacklist own) (apiname a) = Ok false /\
    get (achievementsData own) (apiname a) = Ok ownAch /\
    r = compare_one ownAch a.
Proof.
  induction l as [|a l IH]; simpl; intros cs H r Hr.
  - inversion H; subst; contradiction.
  - bind_inv H. destruct x.
    + destruct (IH _ H _ Hr) as (a' & o & Ha & Hrest). exists a', o; auto.
    + bind_inv H. bind_inv H. inversion H; subst; clear H.
      destruct Hr as [<- | Hr].
      * exists a, x; auto.
      * destruct (IH _ E1 _ Hr) as (a' & o & Ha & Hrest). exists a', o; auto.
Qed.

Lemma status_of_In (they you : bool) : In (status_of they you) statuses.
Proof. destruct they, you; simpl; auto. Qed.

Lemma compare_loop_statuses (own : own_data) (l : list achievement) :
  forall cs, compare_loop own l = Ok cs ->
  Forall (fun r => In (status r) statuses) cs.
Proof.
  intros cs H. apply Forall_forall. intros r Hr.
  destruct (compare_loop_In _ _ H _ Hr) as (a & o & _ & _ & _ & ->).
  apply status_of_In.
Qed.

(** The four counts split any list whose statuses are among the four. *)
Lemma count_status_partition (l : list comparison_record) :
  Forall (fun r => In (status r) statuses) l ->
  count_status "both-unlocked" l + count_status "you-only" l
  + count_status "they-only" l + count_status "both-locked" l = List.length l.
Proof.
  unfold count_status.
  induction 1 as [|r l Hr _ IH]; simpl; [reflexivity|].
  simpl in Hr.
  destruct Hr as [<- | [<- | [<- | [<- | []]]]]; simpl; lia.
Qed.

(** C2. In every record [compareAchievements] produces, the status is the
    one the pair (theyHave, youHave) fixes: (true, true) both-unlocked,
    (true, false) they-only, (false, true) you-only, (false, false)
    both-locked; it is never anything else. *)
Theorem compareAchievements_status (theirGame : game) (ownData : option own_data)
  (cd : comparison_data) (r : comparison_record) :
  compareAchievements theirGame ownData = Ok cd ->
  In r (comparison cd) ->
  exists own ownAch,
    ownData = Some own /\
    In (their r) (achievements theirGame) /\
    get (achievementsData own) (apiname (their r)) = Ok ownAch /\
    match theyHave (their r), youHave ownAch with
    | true, true => status r = "both-unlocked"
    | true, false => status r = "they-only"
    | false, true => status r = "you-only"
    | false, false => status r = "both-locked"
    end /\
    In (status r) statuses.
Proof.
  intros H Hr. destruct ownData as [own|]; simpl in H.
  - bind_inv H. inversion H; subst; clear H. simpl in Hr.
    destruct (compare_loop_In _ _ E _ Hr) as (a & o & Ha & _ & Hget & ->).
    exists own, o. simpl. repeat split; auto.
    + destruct (theyHave a), (youHave o); reflexivity.
    + apply status_of_In.
  - inversion H; subst. contradiction.
Qed.

Lemma compareAchievements_status_witness :
  exists own ownAch,
    Some sample_own = Some own /\
    In (sample_achievement "Z" (VBool false)) (achievements sample_game) /\
    get (achievementsData own) "Z" = Ok ownAch /\
    match theyHave (sample_achievement "Z" (VBool false)), youHave ownAch with
    | true, true => "you-only" = "both-unlocked"
    | true, false => "you-only" = "they-only"
    | false, true => "you-only" = "you-only"
    | false, false => "you-only" = "both-locked"
    end /\
    In "you-only" statuses.
Proof.
  apply (@compareAchievements_status sample_game (Some sample_own)
           {| hasData := true;
              comparison :=
                [compare_one VUndef (sample_achievement "X" (VBool true));
                 compare_one (VObj [("earned", VBool true)])
                   (sample_achievement "Y" (VNum 1%float));
                 compare_one (VObj [("earned", VNum 1%float)])
                   (sample_achievement "Z" (VBool false))] |}
           (compare_one (VObj [("earned", VNum 1%float)])
              (sample_achievement "Z" (VBool false)))).
  - reflexivity.
  - simpl. auto.
Defined.

(** C3. On every comparison list [compareAchievements] produces, the four
    counts of [getComparisonStats] add up to [total], which is the length
    of the list; [yourTotal] and [theirTotal] are the sums of their two
    counts. *)
Theorem getComparisonStats_partition (theirGame : game) (ownData : option own_data)
  (cd : comparison_data) :
  compareAchievements theirGame ownData = Ok cd ->
  let s := getComparisonStats (comparison cd) in
  bothUnlocked s + youOnly s + theyOnly s + bothLocked s = total s /\
  total s = List.length (comparison cd) /\
  yourTotal s = bothUnlocked s + youOnly s /\
  theirTotal s = bothUnlocked s + theyOnly s.
Proof.
  intros H s. subst s. simpl. repeat split.
  apply count_status_partition.
  destruct ownData as [own|]; simpl in H.
  - bind_inv H. inversion H; subst; simpl.
    eapply compare_loop_statuses; eauto.
  - inversion H; subst; simpl. constructor.
Qed.

Lemma getComparisonStats_partition_witness :
  let s := getComparisonStats
             [compare_one VUndef (sample_achievement "X" (VBool true));
              compare_one (VObj [("earned", VBool true)])
                (sample_achievement "Y" (VNum 1%float));
              compare_one (VObj [("earned", VNum 1%float)])
                (sample_achievement "Z" (VBool false))] in
  bothUnlocked s + youOnly s + theyOnly s + bothLocked s = total s /\
  total s = 3 /\
  yourTotal s = bothUnlocked s + youOnly s /\
  theirTotal s = bothUnlocked s + theyOnly s.
Proof.
  apply (@getComparisonStats_partition sample_game (Some sample_own)
           {| hasData := true;
              comparison :=
                [compare_one VUndef (sample_achievement "X" (VBool true));
                 compare_one (VObj [("earned", VBool true)])
                   (sample_achievement "Y" (VNum 1%float));
                 compare_one (VObj [("earned", VNum 1%float)])
                   (sample_achievement "Z" (VBool false))] |}).
  reflexivity.
Defined.

(** ** The normalizer *)

Lemma for_in_In (bl : value) (body : string -> result achievement) (keys : list string) :
  forall l, for_in bl body keys = Ok l ->
  forall a, In a l ->
  exists key, In key keys /\ includes bl key = Ok false /\ body key = Ok a.
Proof.
  induction keys as [|key keys IH]; simpl; intros l H a Ha.
  - inversion H; subst; contradiction.
  - bind_inv H. destruct x.
    + destruct (IH _ H _ Ha) as (k & Hk & Hrest). exists k; auto.
    + bind_inv H. bind_inv H. inversion H; subst; clear H.
      destruct Ha as [<- | Ha].
      * exists key; auto.
      * destruct (IH _ E1 _ Ha) as (k & Hk & Hrest). exists k; auto.
Qed.

Lemma schema_achievement_apiname (key : string) (achInfo userAch : value) (a : achievement) :
  schema_achievement key achInfo userAch = Ok a -> apiname a = key.
Proof.
  unfold schema_achievement. intros H.
  repeat bind_inv H. inversion H; reflexivity.
Qed.

Lemma save_achievement_apiname (key : string) (ach : value) (a : achievement) :
  save_achievement key ach = Ok a -> apiname a = key.
Proof.
  unfold save_achievement. intros H.
  repeat bind_inv H. inversion H; reflexivity.
Qed.

(** Which branch a run takes, and what each listed achievement is. *)
Lemma build_achievements_In (achievementsData gameInfo : value) (achs : list achievement) :
  build_achievements achievementsData gameInfo = Ok achs ->
  exists achData,
    achData_of achievementsData = Ok achData /\
    forall a, In a achs ->
      includes (blacklist_of (default_null gameInfo)) (apiname a) = Ok false /\
      if truthy (schema_of (default_null gameInfo)) then
        exists achInfo userAch,
          get (schema_of (default_null gameInfo)) (apiname a) = Ok achInfo /\
          get achData (apiname a) = Ok userAch /\
          schema_achievement (apiname a) achInfo userAch = Ok a
      else
        exists ach,
          In (apiname a) (keys_of achData) /\
          get achData (apiname a) = Ok ach /\
          save_achievement (apiname a) ach = Ok a.
Proof.
  unfold build_achievements. intros H. bind_inv H.
  exists x. split; [assumption|]. intros a Ha.
  destruct (truthy (schema_of (default_null gameInfo)));
    destruct (for_in_In _ _ _ H _ Ha) as (key & Hk & Hbl & Hbody).
  - bind_inv Hbody. bind_inv Hbody.
    pose proof (schema_achievement_apiname _ _ _ Hbody) as ->.
    split; [assumption|]. exists x0, x1. auto.
  - bind_inv Hbody.
    pose proof (save_achievement_apiname _ _ Hbody) as ->.
    split; [assumption|]. exists x0. auto.
Qed.

Lemma existsb_is_key (key : string) (l : list value) :
  In (VStr key) l -> existsb (is_key key) l = true.
Proof.
  intros H. apply existsb_exists. exists (VStr key). split; [assumption|].
  simpl. apply String.eqb_refl.
Qed.

(** C4. No achievement whose key is in the blacklist is in the list the
    normalizer builds, whether it follows the schema or the user state. *)
Theorem blacklisted_never_listed (achievementsData gameInfo : value)
  (keys : list value) (key : string) (achs : list achievement) :
  get_opt (default_null gameInfo) "blacklist" = VArr keys ->
  In (VStr key) keys ->
  build_achievements achievementsData gameInfo = Ok achs ->
  ~ In key (map apiname achs).
Proof.
  intros Hbl Hkey H Hin.
  apply in_map_iff in Hin. destruct Hin as (a & <- & Ha).
  destruct (build_achievements_In _ _ H) as (achData & _ & Hall).
  destruct (Hall a Ha) as (Hinc & _).
  unfold blacklist_of in Hinc. rewrite Hbl in Hinc. simpl in Hinc.
  rewrite (existsb_is_key _ _ Hkey) in Hinc. discriminate.
Qed.

Lemma blacklisted_never_listed_witness :
  (exists achs,
     build_achievements save_A
       (VObj [("achievements", schema_A); ("blacklist", VArr [VStr "A"])]) = Ok achs /\
     ~ In "A" (map apiname achs)) /\
  (exists achs,
     build_achievements save_AB (VObj [("blacklist", VArr [VStr "A"])]) = Ok achs /\
     ~ In "A" (map apiname achs)).
Proof.
  split; eexists; (split; [reflexivity|]).
  - apply (@blacklisted_never_listed save_A
             (VObj [("achievements", schema_A); ("blacklist", VArr [VStr "A"])])
             [VStr "A"] "A");
      [reflexivity | left; reflexivity | reflexivity].
  - apply (@blacklisted_never_listed save_AB (VObj [("blacklist", VArr [VStr "A"])])
             [VStr "A"] "A");
      [reflexivity | left; reflexivity | reflexivity].
Defined.

Lemma get_Ok (v : value) (k : string) (x : value) :
  get v k = Ok x -> nullish v = false /\ x = get_opt v k.
Proof.
  unfold get, get_opt. destruct (nullish v); intros H; inversion H; auto.
Qed.

Lemma truthy_not_nullish (v : value) : truthy v = true -> nullish v = false.
Proof. destruct v; simpl; auto; discriminate. Qed.

Lemma falsy_no_props (v : value) (k : string) : truthy v = false -> get_opt v k = VUndef.
Proof.
  destruct v; simpl; try reflexivity; try discriminate.
  unfold get_opt; simpl.
  destruct s; simpl; [reflexivity | discriminate].
Qed.

Lemma or_first_truthy (a b : value) : or_ a b = first_truthy [a] b.
Proof. reflexivity. Qed.

Lemma unlocked_of_chain (userAch v : value) :
  unlocked_of userAch = Ok v ->
  v = first_truthy
        [get_opt userAch "earned"; get_opt userAch "unlocked"; get_opt userAch "achieved"]
        (VBool false).
Proof.
  unfold unlocked_of. intros H. repeat bind_inv H.
  apply get_Ok in E, E0, E1. destruct E as [_ ->], E0 as [_ ->], E1 as [_ ->].
  inversion H; subst; clear H.
  generalize (get_opt userAch "earned") (get_opt userAch "unlocked")
             (get_opt userAch "achieved").
  intros e u c. unfold or_, first_truthy.
  destruct (truthy e) eqn:Te; rewrite ?Te; [reflexivity|].
  destruct (truthy u) eqn:Tu; rewrite ?Tu; reflexivity.
Qed.

Lemma schema_achievement_unlocked (key : string) (achInfo userAch : value) (a : achievement) :
  schema_achievement key achInfo userAch = Ok a ->
  unlocked a =
    first_truthy
      [get_opt userAch "earned"; get_opt userAch "unlocked"; get_opt userAch "achieved"]
      (VBool false).
Proof.
  unfold schema_achievement. intros H. repeat bind_inv H.
  inversion H; subst; clear H. simpl.
  destruct (truthy userAch) eqn:T.
  - apply unlocked_of_chain; assumption.
  - inversion E4; subst. simpl. rewrite !falsy_no_props by assumption. reflexivity.
Qed.

Lemma save_achievement_unlocked (key : string) (ach : value) (a : achievement) :
  save_achievement key ach = Ok a ->
  unlocked a =
    first_truthy
      [get_opt ach "earned"; get_opt ach "unlocked"; get_opt ach "achieved"]
      (VBool false).
Proof.
  unfold save_achievement. intros H. repeat bind_inv H.
  inversion H; subst; clear H. simpl.
  apply unlocked_of_chain; assumption.
Qed.

(** C6, as the code has it. The [unlocked] field of every canonical
    achievement is the first truthy value among the user-state entry's
    [earned], [unlocked] and [achieved], in that order, stored as it is;
    it is the boolean [false] when none of them is truthy, which includes
    the absent entry.  So it is truthy exactly when one of the three is,
    but a boolean only when the winning value is one. *)
Theorem unlocked_first_truthy (achievementsData gameInfo : value)
  (achs : list achievement) (a : achievement) :
  build_achievements achievementsData gameInfo = Ok achs ->
  In a achs ->
  exists achData,
    achData_of achievementsData = Ok achData /\
    let userAch := get_opt achData (apiname a) in
    let earned := get_opt userAch "earned" in
    let unlocked_ := get_opt userAch "unlocked" in
    let achieved := get_opt userAch "achieved" in
    unlocked a = first_truthy [earned; unlocked_; achieved] (VBool false) /\
    truthy (unlocked a) = truthy earned || truthy unlocked_ || truthy achieved /\
    (truthy (unlocked a) = false -> unlocked a = VBool false).
Proof.
  intros H Ha.
  destruct (build_achievements_In _ _ H) as (achData & HachData & Hall).
  exists achData. split; [assumption|].
  destruct (Hall a Ha) as (_ & Hbranch).
  assert (Hu : unlocked a =
               first_truthy
                 [get_opt (get_opt achData (apiname a)) "earned";
                  get_opt (get_opt achData (apiname a)) "unlocked";
                  get_opt (get_opt achData (apiname a)) "achieved"] (VBool false)).
  { destruct (truthy (schema_of (default_null gameInfo))).
    - destruct Hbranch as (achInfo & userAch & _ & Hget & Hbuild).
      apply get_Ok in Hget. destruct Hget as [_ ->].
      apply schema_achievement_unlocked in Hbuild. assumption.
    - destruct Hbranch as (ach & _ & Hget & Hbuild).
      apply get_Ok in Hget. destruct Hget as [_ ->].
      apply save_achievement_unlocked in Hbuild. assumption. }
  cbv zeta. rewrite Hu. split; [reflexivity|]. simpl.
  destruct (truthy (get_opt (get_opt achData (apiname a)) "earned")) eqn:T1;
    [rewrite T1; split; [reflexivity | discriminate]|].
  destruct (truthy (get_opt (get_opt achData (apiname a)) "unlocked")) eqn:T2;
    [rewrite T2; split; [reflexivity | discriminate]|].
  destruct (truthy (get_opt (get_opt achData (apiname a)) "achieved")) eqn:T3;
    [rewrite T3; split; [reflexivity | discriminate]|].
  split; reflexivity.
Qed.

Lemma unlocked_first_truthy_witness :
  exists achData,
    achData_of save_AB = Ok achData /\
    let userAch := get_opt achData "B" in
    let earned := get_opt userAch "earned" in
    let unlocked_ := get_opt userAch "unlocked" in
    let achieved := get_opt userAch "achieved" in
    VNum 1%float = first_truthy [earned; unlocked_; achieved] (VBool false) /\
    truthy (VNum 1%float) = truthy earned || truthy unlocked_ || truthy achieved /\
    (truthy (VNum 1%float) = false -> VNum 1%float = VBool false).
Proof.
  apply (@unlocked_first_truthy save_AB VNull
           [{| apiname := "A"; name := VStr "A"; description := VStr "";
               hidden := VBool false; icon := VStr ""; icongray := VStr "";
               unlocked := VBool true; unlocktime := VNum 0%float;
               rarity := VNull; group := VNull |};
            {| apiname := "B"; name := VStr "B"; description := VStr "";
               hidden := VBool false; icon := VStr ""; icongray := VStr "";
               unlocked := VNum 1%float; unlocktime := VNum 0%float;
               rarity := VNum 5%float; group := VStr "DLC" |}]
           {| apiname := "B"; name := VStr "B"; description := VStr "";
              hidden := VBool false; icon := VStr ""; icongray := VStr "";
              unlocked := VNum 1%float; unlocktime := VNum 0%float;
              rarity := VNum 5%float; group := VStr "DLC" |}).
  - reflexivity.
  - right; left; reflexivity.
Defined.

(** C6, as the claim has it, fails: an entry [{achieved: 1}] gives
    [unlocked: 1], a number. *)
Lemma unlocked_not_always_boolean :
  ~ (forall (achievementsData gameInfo : value) (achs : list achievement) (a : achievement),
       build_achievements achievementsData gameInfo = Ok achs ->
       In a achs ->
       is_boolean (unlocked a) = true).
Proof.
  intros H.
  specialize (H (VObj [("B", VObj [("achieved", VNum 1%float)])]) VNull _ _
                eq_refl (or_introl eq_refl)).
  discriminate H.
Qed.

Lemma save_achievement_fields (key : string) (ach : value) (a : achievement) :
  save_achievement key ach = Ok a ->
  name a = first_truthy [get_opt ach "name"; get_opt ach "displayName"] (VStr key) /\
  description a = first_truthy [get_opt ach "description"; get_opt ach "desc"] (VStr "") /\
  icongray a =
    first_truthy [get_opt ach "icongray"; get_opt ach "icon_gray"; get_opt ach "icon"]
      (VStr "") /\
  rarity a = first_truthy [get_opt ach "percent"] VNull /\
  group a = first_truthy [get_opt ach "group"] VNull.
Proof.
  unfold save_achievement. intros H. repeat bind_inv H.
  repeat match goal with
         | E : get _ _ = Ok _ |- _ => apply get_Ok in E; destruct E as [_ ->]
         end.
  inversion H; subst; clear H. simpl. unfold or_.
  repeat split.
  - destruct (truthy (get_opt ach "name")) eqn:T; rewrite ?T; reflexivity.
  - destruct (truthy (get_opt ach "description")) eqn:T; rewrite ?T; reflexivity.
  - destruct (truthy (get_opt ach "icongray")) eqn:T; rewrite ?T; [reflexivity|].
    destruct (truthy (get_opt ach "icon_gray")) eqn:T'; rewrite ?T'; reflexivity.
Qed.

(** C7, as the code has it. When the schema branch is not taken, every
    canonical achievement is built from its user-state entry alone: name,
    description and icongray through the alias chains, rarity is the
    entry's own [percent] when that is truthy and null when it is not
    (absent, 0, the empty string, ...), and group is the entry's own
    [group] when that is truthy and null when it is not. *)
Theorem save_driven_from_entry (achievementsData gameInfo : value)
  (achs : list achievement) (a : achievement) :
  truthy (schema_of (default_null gameInfo)) = false ->
  build_achievements achievementsData gameInfo = Ok achs ->
  In a achs ->
  exists achData,
    achData_of achievementsData = Ok achData /\
    In (apiname a) (keys_of achData) /\
    let ach := get_opt achData (apiname a) in
    name a = first_truthy [get_opt ach "name"; get_opt ach "displayName"]
               (VStr (apiname a)) /\
    description a = first_truthy [get_opt ach "description"; get_opt ach "desc"]
                      (VStr "") /\
    icongray a =
      first_truthy [get_opt ach "icongray"; get_opt ach "icon_gray"; get_opt ach "icon"]
        (VStr "") /\
    rarity a = first_truthy [get_opt ach "percent"] VNull /\
    group a = first_truthy [get_opt ach "group"] VNull.
Proof.
  intros Hmode H Ha.
  destruct (build_achievements_In _ _ H) as (achData & HachData & Hall).
  exists achData. split; [assumption|].
  destruct (Hall a Ha) as (_ & Hbranch). rewrite Hmode in Hbranch.
  destruct Hbranch as (ach & Hkey & Hget & Hbuild).
  apply get_Ok in Hget. destruct Hget as [_ ->].
  split; [assumption|]. apply save_achievement_fields. assumption.
Qed.

Lemma save_driven_from_entry_witness :
  exists achData,
    achData_of save_A = Ok achData /\
    In "A" (keys_of achData) /\
    let ach := get_opt achData "A" in
    VStr "A" = first_truthy [get_opt ach "name"; get_opt ach "displayName"] (VStr "A") /\
    VStr "" = first_truthy [get_opt ach "description"; get_opt ach "desc"] (VStr "") /\
    VStr "" =
      first_truthy [get_opt ach "icongray"; get_opt ach "icon_gray"; get_opt ach "icon"]
        (VStr "") /\
    VNull = first_truthy [get_opt ach "percent"] VNull /\
    VNull = first_truthy [get_opt ach "group"] VNull.
Proof.
  apply (@save_driven_from_entry save_A VNull
           [{| apiname := "A"; name := VStr "A"; description := VStr "";
               hidden := VBool false; icon := VStr ""; icongray := VStr "";
               unlocked := VBool true; unlocktime := VNum 1000%float;
               rarity := VNull; group := VNull |}]
           {| apiname := "A"; name := VStr "A"; description := VStr "";
              hidden := VBool false; icon := VStr ""; icongray := VStr "";
              unlocked := VBool true; unlocktime := VNum 1000%float;
              rarity := VNull; group := VNull |}).
  - reflexivity.
  - reflexivity.
  - left; reflexivity.
Defined.

(** C7, as the claim has it, fails: an entry that carries [percent] and
    [group] gets them as rarity and group. *)
Lemma save_driven_rarity_not_always_null :
  ~ (forall (achievementsData gameInfo : value) (achs : list achievement) (a : achievement),
       truthy (schema_of (default_null gameInfo)) = false ->
       build_achievements achievementsData gameInfo = Ok achs ->
       In a achs ->
       rarity a = VNull /\ group a = VNull).
Proof.
  intros H.
  destruct (H save_AB VNull _ _ eq_refl eq_refl (or_intror (or_introl eq_refl)))
    as [Hr _].
  discriminate Hr.
Qed.

(** An entry whose [percent] is 0 and whose [group] is the empty string
    has them, and gets null for both. *)
Example falsy_percent_is_null :
  build_achievements
    (VObj [("A", VObj [("percent", VNum 0%float); ("group", VStr "")])]) VNull
  = Ok [{| apiname := "A"; name := VStr "A"; description := VStr "";
           hidden := VBool false; icon := VStr ""; icongray := VStr "";
           unlocked := VBool false; unlocktime := VNum 0%float;
           rarity := VNull; group := VNull |}].
Proof. reflexivity. Qed.

(** C1, on the code. With the schema [{}] the schema branch runs and lists
    nothing, whatever the user state holds; without a schema the same user
    state gives its achievement.  The hub's [hasFullSchema] takes [{}] for
    no schema and counts from the user state. *)
Theorem empty_schema_lists_nothing :
  build_achievements save_A (VObj [("achievements", VObj [])]) = Ok [] /\
  (exists a, build_achievements save_A VNull = Ok [a] /\ apiname a = "A") /\
  hasFullSchema (VObj [("achievements", VObj [])]) = false /\
  count_game (VObj [("achievements", save_A);
                    ("info", VObj [("achievements", VObj [])])])
  = Ok {| totalCount := 1; earnedCount := 1; canDeterminePerfect := false |}.
Proof.
  repeat split. eexists; split; reflexivity.
Qed.

(** ** Objects *)

Lemma eqb_trans_false (k k' k0 : string) :
  String.eqb k' k0 = false -> String.eqb k k0 = true -> String.eqb k k' = false.
Proof.
  intros H1 H2. apply String.eqb_eq in H2. subst k0.
  rewrite String.eqb_sym. assumption.
Qed.

Lemma lookup_replace_prop (k k' : string) (v : value) (o : obj) :
  has_key k' o = true ->
  lookup k (replace_prop k' v o) = if String.eqb k k' then v else lookup k o.
Proof.
  induction o as [|[k0 v0] o IH]; simpl; [discriminate|].
  destruct (String.eqb k' k0) eqn:K; simpl.
  - intros _. apply String.eqb_eq in K. subst k0.
    destruct (String.eqb k k'); reflexivity.
  - intros H. destruct (String.eqb k k0) eqn:K0.
    + rewrite (eqb_trans_false _ _ _ K K0). reflexivity.
    + apply IH. assumption.
Qed.

Lemma lookup_insert_index (n : N) (k k' : string) (v : value) (o : obj) :
  has_key k' o = false ->
  lookup k (insert_index n k' v o) = if String.eqb k k' then v else lookup k o.
Proof.
  induction o as [|[k0 v0] o IH]; simpl; [reflexivity|].
  intros H. apply orb_false_iff in H. destruct H as [K H].
  destruct (array_index k0) as [m|]; [destruct (m <? n)%N|]; simpl; try reflexivity.
  destruct (String.eqb k k0) eqn:K0.
  - rewrite (eqb_trans_false _ _ _ K K0). reflexivity.
  - apply IH. assumption.
Qed.

Lemma lookup_app_new (k k' : string) (v : value) (o : obj) :
  has_key k' o = false ->
  lookup k (o ++ [(k', v)]) = if String.eqb k k' then v else lookup k o.
Proof.
  induction o as [|[k0 v0] o IH]; simpl; [reflexivity|].
  intros H. apply orb_false_iff in H. destruct H as [K H].
  destruct (String.eqb k k0) eqn:K0.
  - rewrite (eqb_trans_false _ _ _ K K0). reflexivity.
  - apply IH. assumption.
Qed.

(** Reading after [o[k'] = v]. *)
Lemma lookup_obj_set (k k' : string) (v : value) (o : obj) :
  lookup k (obj_set k' v o) = if String.eqb k k' then v else lookup k o.
Proof.
  unfold obj_set. destruct (has_key k' o) eqn:H.
  - apply lookup_replace_prop. assumption.
  - destruct (array_index k').
    + apply lookup_insert_index. assumption.
    + apply lookup_app_new. assumption.
Qed.

(** A new key that is an array index goes before the other keys and
    among the indices by value; an old key keeps its place. *)
Example obj_set_order :
  obj_set "2" VNull [("10", VUndef); ("b", VUndef)]
  = [("2", VNull); ("10", VUndef); ("b", VUndef)]
  /\ obj_set "a" VNull [("10", VUndef); ("b", VUndef)]
     = [("10", VUndef); ("b", VUndef); ("a", VNull)]
  /\ obj_set "b" VNull [("b", VUndef); ("c", VUndef)]
     = [("b", VNull); ("c", VUndef)]
  /\ obj_set "02" VNull [("10", VUndef); ("b", VUndef)]
     = [("10", VUndef); ("b", VUndef); ("02", VNull)].
Proof. repeat split. Qed.

Lemma find_app {A : Type} (f : A -> bool) (l1 l2 : list A) :
  find f (l1 ++ l2) = match find f l1 with Some x => Some x | None => find f l2 end.
Proof.
  induction l1 as [|x l1 IH]; simpl; [reflexivity|].
  destruct (f x); [reflexivity | assumption].
Qed.

Lemma lookup_fold_set (k : string) (kvs : list (string * value)) :
  forall o,
    lookup k (fold_left (fun o kv => obj_set (fst kv) (snd kv) o) kvs o)
    = match find (fun kv => String.eqb k (fst kv)) (List.rev kvs) with
      | Some kv => snd kv
      | None => lookup k o
      end.
Proof.
  induction kvs as [|kv kvs IH]; intros o; simpl; [reflexivity|].
  rewrite IH, find_app. simpl.
  destruct (find (fun kv0 => String.eqb k (fst kv0)) (List.rev kvs)); [reflexivity|].
  rewrite lookup_obj_set. destruct (String.eqb k (fst kv)); reflexivity.
Qed.

(** ** The legacy array *)

Lemma fold_convert_Throw {RT : Runtime} (l : list value) :
  fold_left convert_entry l Throw = Throw.
Proof. induction l as [|v l IH]; simpl; [reflexivity | exact IH]. Qed.

Section Legacy.
Context {RT : Runtime}.

(** One turn, on a record. *)
Lemma convert_entry_record (c : obj * option obj) (entry : obj) :
  convert_entry (Ok c) (VObj entry)
  = if coercible entry then
      Ok (if keyed entry
          then obj_set (legacy_key entry) (VObj (entry_state entry)) (fst c)
          else fst c,
          if proto_keyed entry then Some (entry_state entry) else snd c)
    else Throw.
Proof.
  unfold convert_entry, coercible, keyed, proto_keyed, legacy_key, js_string, get.
  simpl. change (read (VObj entry)) with (fun k => lookup k entry). cbv beta.
  destruct (truthy (lookup "apiname" entry)); simpl; [|destruct c; reflexivity].
  destruct (convertible (lookup "apiname" entry)); simpl; [|reflexivity].
  destruct (String.eqb (to_string (lookup "apiname" entry)) "__proto__"); reflexivity.
Qed.

Lemma convert_entries (entries : list obj) :
  forall c,
    fold_left convert_entry (map VObj entries) (Ok c)
    = if forallb coercible entries
      then Ok (own_after entries (fst c), proto_after entries (snd c))
      else Throw.
Proof.
  unfold own_after, proto_after.
  induction entries as [|e entries IH]; intros c; [destruct c; reflexivity|].
  cbn [map fold_left forallb]. rewrite convert_entry_record.
  destruct (coercible e); cbn [andb]; [|apply fold_convert_Throw].
  rewrite IH. destruct (forallb coercible entries); [|reflexivity].
  cbn [fst snd filter List.rev]. rewrite find_app. cbn [find].
  destruct (keyed e), (proto_keyed e), (find proto_keyed (List.rev entries));
    reflexivity.
Qed.

(** What the conversion makes of an array of records. *)
Lemma convert_legacy_records (entries : list obj) :
  convert_legacy (VArr (map VObj entries))
  = if forallb coercible entries then
      Ok (match proto_after entries None with
          | None => VObj (own_after entries [])
          | Some inherited => VInh (own_after entries []) inherited
          end)
    else Throw.
Proof.
  unfold convert_legacy. rewrite convert_entries.
  destruct (forallb coercible entries); reflexivity.
Qed.

Lemma own_keyed_cases (entry : obj) :
  own_keyed entry = true ->
  coercible entry = true /\ proto_keyed entry = false /\
  keyed entry = truthy (lookup "apiname" entry).
Proof.
  unfold own_keyed, coercible, proto_keyed, keyed.
  destruct (truthy (lookup "apiname" entry)); simpl; [|auto].
  destruct (convertible (lookup "apiname" entry)); simpl; [|discriminate].
  destruct (String.eqb (legacy_key entry) "__proto__"); simpl; [discriminate | auto].
Qed.

Lemma own_keyed_all (entries : list obj) :
  forallb own_keyed entries = true ->
  forallb coercible entries = true /\
  (forall p, proto_after entries p = p) /\
  filter keyed entries = filter (fun e => truthy (lookup "apiname" e)) entries.
Proof.
  unfold proto_after. induction entries as [|e entries IH]; simpl; intros H.
  - auto.
  - apply andb_true_iff in H. destruct H as [He H].
    destruct (own_keyed_cases _ He) as (Hc & Hp & Hk).
    destruct (IH H) as (IHc & IHp & IHk).
    rewrite Hc, IHc, Hk, IHk. split; [reflexivity|]. split; [|reflexivity].
    intros p. rewrite find_app. specialize (IHp p).
    destruct (find proto_keyed (List.rev entries)); [assumption|].
    simpl. rewrite Hp. reflexivity.
Qed.

(** An array of records none of whose turns throws or sets the prototype
    becomes a plain object. *)
Lemma convert_legacy_own_keyed (entries : list obj) :
  forallb own_keyed entries = true ->
  convert_legacy (VArr (map VObj entries)) = Ok (VObj (own_after entries [])).
Proof.
  intros H. destruct (own_keyed_all _ H) as (Hc & Hp & _).
  rewrite convert_legacy_records, Hc, Hp. reflexivity.
Qed.

(** C5, on the code. A legacy array with an entry named [__proto__] is
    not normalized as the keyed mapping of the specification is: the
    assignment [converted['__proto__'] = {...}] replaces the prototype of
    [converted] instead of adding a key, and the loop of the normalizer
    then lists the inherited [earned] and [earned_time] as achievements,
    where the keyed mapping gives the achievement [__proto__]. *)
Theorem legacy_proto_entry_not_keyed :
  convert_legacy proto_array
  = Ok (VInh [("B", VObj [("earned", VBool true); ("earned_time", VNum 500%float)])]
             [("earned", VBool true); ("earned_time", VNum 700%float)]) /\
  (converted <- convert_legacy proto_array;; build_achievements converted VNull)
  = Ok [{| apiname := "B"; name := VStr "B"; description := VStr "";
           hidden := VBool false; icon := VStr ""; icongray := VStr "";
           unlocked := VBool true; unlocktime := VNum 500%float;
           rarity := VNull; group := VNull |};
        {| apiname := "earned"; name := VStr "earned"; description := VStr "";
           hidden := VBool false; icon := VStr ""; icongray := VStr "";
           unlocked := VBool false; unlocktime := VNum 0%float;
           rarity := VNull; group := VNull |};
        {| apiname := "earned_time"; name := VStr "earned_time";
           description := VStr "";
           hidden := VBool false; icon := VStr ""; icongray := VStr "";
           unlocked := VBool false; unlocktime := VNum 0%float;
           rarity := VNull; group := VNull |}] /\
  build_achievements proto_mapping VNull
  = Ok [{| apiname := "B"; name := VStr "B"; description := VStr "";
           hidden := VBool false; icon := VStr ""; icongray := VStr "";
           unlocked := VBool true; unlocktime := VNum 500%float;
           rarity := VNull; group := VNull |};
        {| apiname := "__proto__"; name := VStr "__proto__"; description := VStr "";
           hidden := VBool false; icon := VStr ""; icongray := VStr "";
           unlocked := VBool true; unlocktime := VNum 700%float;
           rarity := VNull; group := VNull |}] /\
  (converted <- convert_legacy proto_array;; build_achievements converted VNull)
  <> build_achievements proto_mapping VNull.
Proof.
  split; [reflexivity|]. split; [reflexivity|]. split; [reflexivity|].
  intros H.
  apply (f_equal (fun r => match r with
                           | Ok l => List.length l
                           | Throw => 0
                           end)) in H.
  discriminate H.
Qed.

(** One turn of [loadGamesFromAppIds] on an appId whose achievements file
    is a legacy array of records. *)
Lemma load_app_legacy (gamesData : games_map) (id body : string) (r : app_replies)
  (entries : list obj) :
  ach_body r = Ok (Some body) ->
  JSON_parse body = Some (VArr (map VObj entries)) ->
  forallb own_keyed entries = true ->
  load_app gamesData (id, r)
  = match processGameData id (VObj (own_after entries []))
            (fetch_game_info (game_info_json r)) gamesData with
    | Ok m => m
    | Throw => gamesData
    end.
Proof.
  intros Hbody Hparse Hkeyed. unfold load_app. rewrite Hbody. simpl.
  unfold json. rewrite Hparse.
  change (bind (Ok ?v) ?k) with (k v). cbv beta.
  rewrite convert_legacy_own_keyed by assumption. reflexivity.
Qed.

End Legacy.

(** An array entry that is [null] is no record: reading its [apiname]
    throws, and [loadGamesFromAppIds] skips the game.  So does an entry
    whose apiname does not convert to a property key. *)
Example convert_legacy_null_entry :
  convert_legacy (RT := sample_runtime) (VArr [VNull]) = Throw
  /\ convert_legacy (RT := sample_runtime)
       (VArr [VObj [("apiname", VObj [("toString", VNum 1%float)])]]) = Throw.
Proof. split; reflexivity. Qed.

(** Scenario 3 of the specification. *)
Example legacy_scenario :
  (converted <- convert_legacy (RT := sample_runtime)
                  (VArr [VObj [("apiname", VStr "B"); ("achieved", VNum 1%float);
                               ("unlocktime", VNum 500%float)]]);;
   build_achievements converted VNull)
  = Ok [{| apiname := "B"; name := VStr "B"; description := VStr "";
           hidden := VBool false; icon := VStr ""; icongray := VStr "";
           unlocked := VBool true; unlocktime := VNum 500%float;
           rarity := VNull; group := VNull |}].
Proof. reflexivity. Qed.

(** ** The collection *)

Lemma map_set_in_place (k : string) (g : game) (m : games_map) :
  map_has k m = true ->
  exists before old after,
    m = before ++ (k, old) :: after /\
    ~ In k (map fst before) /\
    map_set k g m = before ++ (k, g) :: after.
Proof.
  unfold map_set. intros H. rewrite H.
  induction m as [|[k' g'] m IH]; simpl in *; [discriminate|].
  destruct (String.eqb k k') eqn:K.
  - apply String.eqb_eq in K. subst k'.
    exists [], g', m. simpl. auto.
  - simpl in H. destruct (IH H) as (before & old & after & -> & Hnot & ->).
    exists ((k', g') :: before), old, after. simpl. repeat split.
    intros [<- | Hin]; [|contradiction].
    rewrite String.eqb_refl in K. discriminate.
Qed.

Lemma map_get_other (k k' : string) (g g' : game) (before after : games_map) :
  k' <> k ->
  map_get k' (before ++ (k, g) :: after) = map_get k' (before ++ (k, g') :: after).
Proof.
  intros Hne. induction before as [|[k0 g0] before IH]; simpl.
  - destruct (String.eqb k' k) eqn:K; [|reflexivity].
    apply String.eqb_eq in K. contradiction.
  - rewrite IH. reflexivity.
Qed.

(** C10. Aggregating an appId the collection already holds puts the new
    record where the old one was: the entries before and after it, and so
    the order of the keys, stay as they were. *)
Theorem processGameData_overwrites_in_place (id : string)
  (achievementsData gameInfo : value) (gamesData : games_map)
  (achs : list achievement) :
  map_has id gamesData = true ->
  build_achievements achievementsData gameInfo = Ok achs ->
  exists before old after g gamesData',
    gamesData = before ++ (id, old) :: after /\
    ~ In id (map fst before) /\
    processGameData id achievementsData gameInfo gamesData = Ok gamesData' /\
    gamesData' = before ++ (id, g) :: after /\
    appId g = id /\ achievements g = achs /\
    map fst gamesData' = map fst gamesData /\
    map_get id gamesData' = Some g /\
    forall k, k <> id -> map_get k gamesData' = map_get k gamesData.
Proof.
  intros Hhas Hbuild. unfold processGameData. rewrite Hbuild. simpl.
  match goal with |- context [map_set id ?g0 gamesData] => set (g := g0) end.
  destruct (map_set_in_place id g gamesData Hhas)
    as (before & old & after & Hm & Hnot & Hset).
  exists before, old, after, g, (before ++ (id, g) :: after).
  rewrite Hset. repeat split; auto.
  - subst gamesData. rewrite !map_app. reflexivity.
  - clear - Hnot. induction before as [|[k0 g0] before IH]; simpl.
    + rewrite String.eqb_refl. reflexivity.
    + destruct (String.eqb id k0) eqn:K.
      * apply String.eqb_eq in K. subst k0. simpl in Hnot. tauto.
      * apply IH. simpl in Hnot. tauto.
  - intros k Hk. subst gamesData. apply map_get_other. assumption.
Qed.

Lemma processGameData_overwrites_in_place_witness :
  exists before old after g gamesData',
    sample_map = before ++ ("10", old) :: after /\
    ~ In "10" (map fst before) /\
    processGameData "10" save_A VNull sample_map = Ok gamesData' /\
    gamesData' = before ++ ("10", g) :: after /\
    appId g = "10" /\
    achievements g =
      [{| apiname := "A"; name := VStr "A"; description := VStr "";
          hidden := VBool false; icon := VStr ""; icongray := VStr "";
          unlocked := VBool true; unlocktime := VNum 1000%float;
          rarity := VNull; group := VNull |}] /\
    map fst gamesData' = map fst sample_map /\
    map_get "10" gamesData' = Some g /\
    forall k, k <> "10" -> map_get k gamesData' = map_get k sample_map.
Proof.
  apply (@processGameData_overwrites_in_place "10" save_A VNull sample_map); reflexivity.
Defined.

(** ** The cache *)

Lemma nonempty_eqb (s : string) : s <> "" -> String.eqb s "" = false.
Proof. intros H. apply String.eqb_neq. assumption. Qed.

Section Cache.
Context {RT : Runtime}.

(** The smart check on an answer 206 whose text gives the timestamp of
    the storage. *)
Lemma smartCheck_same_timestamp (w : world) (timestamp cached text : string) :
  cached_timestamp (store w) = Some timestamp ->
  timestamp <> "" ->
  cached_games (store w) = Some cached ->
  cached <> "" ->
  range_reply w = Response 206 text ->
  match_last_updated text = Some timestamp ->
  smartCheck w
  = match JSON_parse cached with
    | Some games => ServeCache games
    | None => NeedsFullFetch
    end.
Proof.
  intros Hts Hts_ne Hcg Hne Hreply Hmatch.
  unfold smartCheck. rewrite Hreply. simpl. rewrite Hmatch, Hts, Hcg. simpl.
  rewrite (nonempty_eqb Hts_ne), (nonempty_eqb Hne), String.eqb_refl. reflexivity.
Qed.

(** C8. With cached games and a cached timestamp in the storage (items
    that are there and not empty), a range check answered with status 206
    from whose text the pattern extracts the cached timestamp makes the
    loader return the cached games as they parse, after the one range
    request and no other, the storage untouched. *)
Theorem unchanged_timestamp_serves_cache (w : world) (timestamp cached text : string)
  (games : value) :
  cached_timestamp (store w) = Some timestamp ->
  timestamp <> "" ->
  cached_games (store w) = Some cached ->
  cached <> "" ->
  JSON_parse cached = Some games ->
  range_reply w = Response 206 text ->
  match_last_updated text = Some timestamp ->
  loadGameDataWithCache w
  = {| returned := Ok games; requests := [RangeRequest]; store_after := store w |}.
Proof.
  intros Hts Hts_ne Hcg Hne Hparse Hreply Hmatch.
  unfold loadGameDataWithCache.
  rewrite (smartCheck_same_timestamp w Hts Hts_ne Hcg Hne Hreply Hmatch), Hparse.
  reflexivity.
Qed.

Lemma malformed_wire_shape (data : value) :
  malformed data = true -> wire_shape data = Throw.
Proof.
  unfold malformed, wire_shape, get, get_opt. intros H.
  apply andb_true_iff in H. destruct H as [Ha Hg].
  apply negb_true_iff in Ha, Hg. rewrite Ha.
  destruct (nullish data); simpl; [reflexivity|].
  rewrite Hg, andb_false_r. reflexivity.
Qed.

(** The catch returns the cached games when both items are there, the
    timestamp is less than [CACHE_MAX_AGE] old and the games parse. *)
Lemma fallback_fresh (w : world) (timestamp cached : string) (t : Z) (games : value) :
  cached_timestamp (store w) = Some timestamp ->
  timestamp <> "" ->
  cached_games (store w) = Some cached ->
  cached <> "" ->
  parseInt timestamp = Some t ->
  ((now_ms w / 1000 - t) * 1000 < CACHE_MAX_AGE)%Z ->
  JSON_parse cached = Some games ->
  fallback w = Ok games.
Proof.
  intros Hts Hts_ne Hcg Hne Hparse Hage Hjson. unfold fallback.
  rewrite Hts, Hcg. simpl.
  rewrite (nonempty_eqb Hts_ne), (nonempty_eqb Hne). simpl.
  rewrite Hparse. apply Z.ltb_lt in Hage. rewrite Hage.
  unfold json. rewrite Hjson. reflexivity.
Qed.

(** It throws in every other case. *)
Lemma fallback_cases (w : world) :
  fallback w = Throw
  \/ exists timestamp t cached games,
       cached_timestamp (store w) = Some timestamp /\
       timestamp <> "" /\
       parseInt timestamp = Some t /\
       ((now_ms w / 1000 - t) * 1000 < CACHE_MAX_AGE)%Z /\
       cached_games (store w) = Some cached /\
       cached <> "" /\
       JSON_parse cached = Some games /\
       fallback w = Ok games.
Proof.
  unfold fallback.
  destruct (cached_games (store w)) as [cached|]; simpl; auto.
  destruct (cached_timestamp (store w)) as [timestamp|]; simpl;
    [|rewrite andb_false_r; auto].
  destruct (String.eqb cached "") eqn:Ec; simpl; auto.
  destruct (String.eqb timestamp "") eqn:Et; simpl; auto.
  apply String.eqb_neq in Ec, Et.
  destruct (parseInt timestamp) as [t|] eqn:P; auto.
  destruct ((now_ms w / 1000 - t) * 1000 <? CACHE_MAX_AGE)%Z eqn:L; auto.
  apply Z.ltb_lt in L. unfold json.
  destruct (JSON_parse cached) as [games|] eqn:J; auto.
  right. exists timestamp, t, cached, games. auto 10.
Qed.

(** C9, as the code has it. A fetched payload of neither wire shape makes
    the loader end in its catch.  There it returns the cached games when
    the storage holds games and a timestamp less than [CACHE_MAX_AGE] old
    and the games parse, and it throws in every other case.  It writes
    nothing to the storage, and when it throws the collection is as it
    was.  The hub's [loadGameData] does not throw on such a payload: it
    leaves the profile with no games. *)
Theorem malformed_payload_outcome (w : world) (data : value) (gamesData : games_map)
  (status : Z) (body : string) :
  malformed data = true ->
  (fetched w data ->
   (forall timestamp t cached games,
      cached_timestamp (store w) = Some timestamp ->
      timestamp <> "" ->
      cached_games (store w) = Some cached ->
      cached <> "" ->
      parseInt timestamp = Some t ->
      ((now_ms w / 1000 - t) * 1000 < CACHE_MAX_AGE)%Z ->
      JSON_parse cached = Some games ->
      returned (loadGameDataWithCache w) = Ok games) /\
   (returned (loadGameDataWithCache w) = Throw
    \/ exists timestamp t cached games,
         cached_timestamp (store w) = Some timestamp /\
         timestamp <> "" /\
         parseInt timestamp = Some t /\
         ((now_ms w / 1000 - t) * 1000 < CACHE_MAX_AGE)%Z /\
         cached_games (store w) = Some cached /\
         cached <> "" /\
         JSON_parse cached = Some games /\
         returned (loadGameDataWithCache w) = Ok games) /\
   (cached_games (store w) = None ->
    returned (loadGameDataWithCache w) = Throw) /\
   store_after (loadGameDataWithCache w) = store w /\
   (returned (loadGameDataWithCache w) = Throw ->
    init_from_manifest w gamesData = (Throw, gamesData))) /\
  (ok status = true -> JSON_parse body = Some data ->
   loadGameData (Response status body) = no_games).
Proof.
  intros Hbad. pose proof (malformed_wire_shape _ Hbad) as Hshape. split.
  - intros Hfetched.
    assert (Hrun : returned (loadGameDataWithCache w) = fallback w
                   /\ store_after (loadGameDataWithCache w) = store w).
    { unfold loadGameDataWithCache.
      destruct Hfetched as [Hs | [Hs Hf]]; rewrite Hs.
      - rewrite Hshape. split; reflexivity.
      - rewrite Hf. simpl. rewrite Hshape. split; reflexivity. }
    destruct Hrun as [Hret Hstore]. rewrite Hret.
    split; [|split; [|split; [|split]]].
    + intros timestamp t cached games. apply fallback_fresh.
    + apply fallback_cases.
    + intros Hnone. unfold fallback. rewrite Hnone. reflexivity.
    + assumption.
    + intros Hthrow. unfold init_from_manifest. rewrite Hret, Hthrow. reflexivity.
  - intros Hok Hparse. unfold loadGameData, json. rewrite Hok, Hparse.
    destruct (truthy data) eqn:T; simpl; [|reflexivity].
    unfold malformed in Hbad. apply andb_true_iff in Hbad. destruct Hbad as [Ha Hg].
    unfold games_of. destruct (is_array data) eqn:A; [discriminate|].
    destruct data; try discriminate A;
      destruct (get_opt _ "games"); simpl in *; try reflexivity; discriminate.
Qed.

End Cache.

Lemma unchanged_timestamp_serves_cache_witness :
  loadGameDataWithCache (RT := sample_runtime) sample_world
  = {| returned := Ok sample_games; requests := [RangeRequest];
       store_after := store sample_world |}.
Proof.
  apply (@unchanged_timestamp_serves_cache sample_runtime sample_world
           "1700000000" "GAMES" manifest_head sample_games);
    try reflexivity; discriminate.
Defined.

(** C9, as the claim has it, fails: with games cached 100 seconds before,
    a malformed payload ends in those games being returned. *)
Lemma malformed_payload_not_always_failure :
  ~ (forall (RT : Runtime) (w : world) (data : value),
       fetched w data -> malformed data = true ->
       returned (loadGameDataWithCache w) = Throw).
Proof.
  intros H.
  specialize (H sample_runtime stale_world (VObj [])).
  assert (Hf : fetched (RT := sample_runtime) stale_world (VObj [])).
  { right. split; reflexivity. }
  specialize (H Hf eq_refl). discriminate H.
Qed.

Lemma malformed_payload_outcome_witness :
  returned (loadGameDataWithCache (RT := sample_runtime) stale_world) = Ok sample_games /\
  store_after (loadGameDataWithCache (RT := sample_runtime) stale_world)
  = store stale_world /\
  loadGameData (RT := sample_runtime) (Response 200 "{}") = no_games.
Proof.
  destruct (@malformed_payload_outcome sample_runtime stale_world (VObj []) sample_map
              200 "{}" eq_refl) as [Hloader Hhub].
  destruct (Hloader (or_intror (conj eq_refl eq_refl))) as (Hfresh & _ & _ & Hstore & _).
  split; [|exact (conj Hstore (Hhub eq_refl eq_refl))].
  apply (Hfresh "1700000000" 1700000000%Z "GAMES" sample_games);
    try reflexivity; discriminate.
Defined.

(** Without cached games the malformed payload is a failure, and the
    collection stays as it was. *)
Example malformed_without_cache :
  let w := {| store := {| cached_timestamp := None; cached_games := None |};
              range_reply := NetworkError;
              full_reply := Response 200 "{}";
              now_ms := 1700000100000;
              has_room := fun _ => true |} in
  loadGameDataWithCache (RT := sample_runtime) w
  = {| returned := Throw; requests := [RangeRequest; FullRequest];
       store_after := store w |}
  /\ init_from_manifest (RT := sample_runtime) w sample_map = (Throw, sample_map).
Proof. split; reflexivity. Qed.

(** ** The scenarios of the specification *)

Example scenario_1 :
  build_achievements save_A (VObj [("achievements", schema_A)])
  = Ok [{| apiname := "A"; name := VStr "A"; description := VStr "";
           hidden := VBool false; icon := VStr ""; icongray := VStr "";
           unlocked := VBool true; unlocktime := VNum 1000%float;
           rarity := VNum 5%float; group := VNull |}].
Proof. reflexivity. Qed.

Example scenario_2 :
  build_achievements save_A
    (VObj [("achievements", schema_A); ("blacklist", VArr [VStr "A"])])
  = Ok [].
Proof. reflexivity. Qed.

Example scenario_4 :
  compareAchievements
    {| appId := "10"; gameName := VStr "Game 10"; gameIcon := VStr "";
       achievements := [sample_achievement "X" (VBool true)];
       usesDb := VBool false; platform := VNull |}
    (Some {| achievementsData := VObj []; blacklist := VArr [] |})
  = Ok {| hasData := true;
          comparison :=
            [{| their := sample_achievement "X" (VBool true);
                status := "they-only";
                yourUnlockTime := VNum 0%float;
                theirUnlockTime := VNum 0%float |}] |}.
Proof. reflexivity. Qed.

Example compare_without_data (theirGame : game) :
  compareAchievements theirGame None = Ok {| hasData := false; comparison := [] |}.
Proof. reflexivity. Qed.

(** * Further properties *)

(** ** The loops of the normalizer *)

Lemma for_in_array_keys (bl : list value) (body : string -> result achievement)
  (keys : list string) :
  (forall key a, body key = Ok a -> apiname a = key) ->
  forall l, for_in (VArr bl) body keys = Ok l ->
  map apiname l = filter (listed bl) keys.
Proof.
  intros Hname. induction keys as [|key keys IH]; simpl; intros l H.
  - inversion H; reflexivity.
  - unfold listed at 1. destruct (existsb (is_key key) bl); simpl in *.
    + apply IH; assumption.
    + bind_inv H. bind_inv H. inversion H; subst; clear H. simpl.
      rewrite (Hname _ _ E), (IH _ E0). reflexivity.
Qed.

Lemma for_in_array_Throw (bl : list value) (body : string -> result achievement)
  (keys : list string) :
  for_in (VArr bl) body keys = Throw <->
  exists key, In key (filter (listed bl) keys) /\ body key = Throw.
Proof.
  induction keys as [|key keys IH]; simpl.
  - split; [discriminate | intros (k & [] & _)].
  - unfold listed at 1. destruct (existsb (is_key key) bl); simpl.
    + exact IH.
    + destruct (body key) as [a|] eqn:B; simpl.
      * destruct (for_in (VArr bl) body keys) as [l|] eqn:F; simpl.
        -- split; [discriminate|]. intros (k & [<- | Hk] & Hb).
           ++ congruence.
           ++ assert (HT : @Throw (list achievement) = Throw) by reflexivity.
              destruct IH as [_ IH]. discriminate IH. exists k; auto.
        -- split; [|reflexivity]. intros _.
           destruct IH as [IH _]. destruct (IH eq_refl) as (k & Hk & Hb).
           exists k; auto.
      * split; [|reflexivity]. intros _. exists key; auto.
Qed.

Lemma achData_of_Ok (achievementsData achData : value) :
  achData_of achievementsData = Ok achData -> nullish achData = false.
Proof.
  unfold achData_of. intros H. bind_inv H. inversion H; subst; clear H.
  apply get_Ok in E. destruct E as [Hn _]. unfold or_.
  destruct (truthy x) eqn:T; [apply truthy_not_nullish|]; assumption.
Qed.

Lemma get_not_nullish (v : value) (k : string) :
  nullish v = false -> get v k = Ok (get_opt v k).
Proof. unfold get, get_opt. intros ->. reflexivity. Qed.

Lemma get_nullish (v : value) (k : string) : nullish v = true -> get v k = Throw.
Proof. unfold get. intros ->. reflexivity. Qed.

Lemma unlocked_of_total (userAch : value) :
  nullish userAch = false -> exists v, unlocked_of userAch = Ok v.
Proof.
  intros H. unfold unlocked_of. rewrite !get_not_nullish by assumption. simpl. eauto.
Qed.

Lemma unlocktime_of_total (userAch : value) :
  nullish userAch = false -> exists v, unlocktime_of userAch = Ok v.
Proof.
  intros H. unfold unlocktime_of. rewrite !get_not_nullish by assumption. simpl. eauto.
Qed.

Lemma schema_achievement_Throw (key : string) (achInfo userAch : value) :
  schema_achievement key achInfo userAch = Throw <-> nullish achInfo = true.
Proof.
  unfold schema_achievement. destruct (nullish achInfo) eqn:N.
  - rewrite get_nullish by assumption. simpl. tauto.
  - rewrite !get_not_nullish by assumption. cbn [bind].
    destruct (truthy userAch) eqn:T.
    + destruct (unlocked_of_total userAch (truthy_not_nullish userAch T)) as (u & ->).
      destruct (unlocktime_of_total userAch (truthy_not_nullish userAch T)) as (t & ->).
      cbn [bind]. split; discriminate.
    + cbn [bind]. split; discriminate.
Qed.

Lemma save_achievement_Throw (key : string) (ach : value) :
  save_achievement key ach = Throw <-> nullish ach = true.
Proof.
  unfold save_achievement. destruct (nullish ach) eqn:N.
  - rewrite get_nullish by assumption. simpl. tauto.
  - rewrite !get_not_nullish by assumption. cbn [bind].
    destruct (unlocked_of_total ach N) as (u & ->).
    destruct (unlocktime_of_total ach N) as (t & ->).
    cbn [bind]. split; discriminate.
Qed.

Lemma for_in_keys (bl : value) (body : string -> result achievement)
  (keys : list string) :
  (forall key a, body key = Ok a -> apiname a = key) ->
  forall l, for_in bl body keys = Ok l ->
  map apiname l = filter (passes bl) keys.
Proof.
  intros Hname. induction keys as [|key keys IH]; simpl; intros l H.
  - inversion H; reflexivity.
  - unfold passes at 1. bind_inv H. rewrite E. destruct x.
    + apply IH; assumption.
    + bind_inv H. bind_inv H. inversion H; subst; clear H. simpl.
      rewrite (Hname _ _ E0), (IH _ E1). reflexivity.
Qed.

Lemma schema_body_apiname (schema achData : value) (key : string) (a : achievement) :
  (achInfo <- get schema key;;
   userAch <- get achData key;;
   schema_achievement key achInfo userAch) = Ok a ->
  apiname a = key.
Proof.
  intros H. bind_inv H. bind_inv H. eapply schema_achievement_apiname; eauto.
Qed.

Lemma save_body_apiname (achData : value) (key : string) (a : achievement) :
  (ach <- get achData key;; save_achievement key ach) = Ok a -> apiname a = key.
Proof.
  intros H. bind_inv H. eapply save_achievement_apiname; eauto.
Qed.

(** X1. The achievements the normalizer lists are, in their order, the
    keys of what it iterates (the schema in the schema branch, the user
    state otherwise) that the blacklist test lets through: one achievement
    for each of them, whether or not the user state has an entry for it. *)
Theorem normalizer_lists_iterated_keys (achievementsData gameInfo achData : value)
  (achs : list achievement) :
  achData_of achievementsData = Ok achData ->
  build_achievements achievementsData gameInfo = Ok achs ->
  map apiname achs
  = filter (passes (blacklist_of (default_null gameInfo)))
      (keys_of (iterated achData (default_null gameInfo))).
Proof.
  unfold build_achievements, iterated. intros HachData H.
  rewrite HachData in H. cbn [bind] in H.
  destruct (truthy (schema_of (default_null gameInfo))).
  - eapply for_in_keys; [|exact H]. intros key a. apply schema_body_apiname.
  - eapply for_in_keys; [|exact H]. intros key a. apply save_body_apiname.
Qed.

Lemma normalizer_lists_iterated_keys_witness :
  map apiname
    [{| apiname := "B"; name := VStr "B"; description := VStr "";
        hidden := VBool false; icon := VStr ""; icongray := VStr "";
        unlocked := VNum 1%float; unlocktime := VNum 0%float;
        rarity := VNum 5%float; group := VStr "DLC" |}]
  = filter (passes (blacklist_of (VObj [("blacklist", VArr [VStr "A"])])))
      (keys_of (iterated save_AB (VObj [("blacklist", VArr [VStr "A"])]))).
Proof.
  apply (@normalizer_lists_iterated_keys save_AB
           (VObj [("blacklist", VArr [VStr "A"])]) save_AB); reflexivity.
Defined.

(** X2. When the keys of what the normalizer iterates are distinct, the
    apinames of the achievements it lists are distinct. *)
Theorem normalizer_apinames_distinct (achievementsData gameInfo achData : value)
  (achs : list achievement) :
  achData_of achievementsData = Ok achData ->
  NoDup (keys_of (iterated achData (default_null gameInfo))) ->
  build_achievements achievementsData gameInfo = Ok achs ->
  NoDup (map apiname achs).
Proof.
  unfold build_achievements, iterated. intros HachData Hkeys H.
  rewrite HachData in H. cbn [bind] in H.
  destruct (truthy (schema_of (default_null gameInfo)));
    (erewrite for_in_keys; [apply NoDup_filter; exact Hkeys | | exact H]);
    intros key a; [apply schema_body_apiname | apply save_body_apiname].
Qed.

Lemma normalizer_apinames_distinct_witness :
  NoDup
    (map apiname
       [{| apiname := "A"; name := VStr "A"; description := VStr "";
           hidden := VBool false; icon := VStr ""; icongray := VStr "";
           unlocked := VBool true; unlocktime := VNum 1000%float;
           rarity := VNum 5%float; group := VNull |}]).
Proof.
  apply (@normalizer_apinames_distinct save_A (VObj [("achievements", schema_A)]) save_A).
  - reflexivity.
  - repeat constructor. simpl. tauto.
  - reflexivity.
Defined.

(** X3. With an array for a blacklist (or none), the normalizer throws
    exactly when an entry it has to read is [null] or [undefined]: a
    schema entry in the schema branch, a user-state entry otherwise, under
    a key the blacklist does not hold. *)
Theorem normalizer_throws_on_null_entry (achievementsData gameInfo achData : value)
  (bl : list value) :
  blacklist_of (default_null gameInfo) = VArr bl ->
  achData_of achievementsData = Ok achData ->
  build_achievements achievementsData gameInfo = Throw <->
  exists key,
    In key (filter (listed bl) (keys_of (iterated achData (default_null gameInfo)))) /\
    nullish (get_opt (iterated achData (default_null gameInfo)) key) = true.
Proof.
  unfold build_achievements, iterated. intros Hbl HachData.
  rewrite HachData, Hbl. cbn [bind].
  pose proof (achData_of_Ok _ HachData) as Hn.
  destruct (truthy (schema_of (default_null gameInfo))) eqn:T.
  - rewrite for_in_array_Throw.
    apply truthy_not_nullish in T.
    split; intros (key & Hk & H); exists key; (split; [assumption|]).
    + rewrite !get_not_nullish in H by assumption. cbn [bind] in H.
      apply schema_achievement_Throw in H. assumption.
    + rewrite !get_not_nullish by assumption. cbn [bind].
      apply schema_achievement_Throw. assumption.
  - rewrite for_in_array_Throw.
    split; intros (key & Hk & H); exists key; (split; [assumption|]).
    + rewrite get_not_nullish in H by assumption. cbn [bind] in H.
      apply save_achievement_Throw in H. assumption.
    + rewrite get_not_nullish by assumption. cbn [bind].
      apply save_achievement_Throw. assumption.
Qed.

Lemma normalizer_throws_on_null_entry_witness :
  build_achievements save_null VNull = Throw.
Proof.
  apply (@normalizer_throws_on_null_entry save_null VNull save_null []);
    [reflexivity | reflexivity |].
  exists "B". split; [right; left; reflexivity | reflexivity].
Defined.

Lemma unlocktime_of_chain (userAch v : value) :
  unlocktime_of userAch = Ok v ->
  v = first_truthy
        [get_opt userAch "earned_time"; get_opt userAch "unlock_time";
         get_opt userAch "unlocktime"]
        (VNum 0%float).
Proof.
  unfold unlocktime_of. intros H. repeat bind_inv H.
  apply get_Ok in E, E0, E1. destruct E as [_ ->], E0 as [_ ->], E1 as [_ ->].
  inversion H; subst; clear H.
  generalize (get_opt userAch "earned_time") (get_opt userAch "unlock_time")
             (get_opt userAch "unlocktime").
  intros e u c. unfold or_, first_truthy.
  destruct (truthy e) eqn:Te; rewrite ?Te; [reflexivity|].
  destruct (truthy u) eqn:Tu; rewrite ?Tu; reflexivity.
Qed.

Lemma schema_achievement_unlocktime (key : string) (achInfo userAch : value)
  (a : achievement) :
  schema_achievement key achInfo userAch = Ok a ->
  unlocktime a =
    first_truthy
      [get_opt userAch "earned_time"; get_opt userAch "unlock_time";
       get_opt userAch "unlocktime"]
      (VNum 0%float).
Proof.
  unfold schema_achievement. intros H. repeat bind_inv H.
  inversion H; subst; clear H. simpl.
  destruct (truthy userAch) eqn:T.
  - apply unlocktime_of_chain; assumption.
  - inversion E5; subst. simpl. rewrite !falsy_no_props by assumption. reflexivity.
Qed.

Lemma save_achievement_unlocktime (key : string) (ach : value) (a : achievement) :
  save_achievement key ach = Ok a ->
  unlocktime a =
    first_truthy
      [get_opt ach "earned_time"; get_opt ach "unlock_time"; get_opt ach "unlocktime"]
      (VNum 0%float).
Proof.
  unfold save_achievement. intros H. repeat bind_inv H.
  inversion H; subst; clear H. simpl.
  apply unlocktime_of_chain; assumption.
Qed.

(** X4. The [unlocktime] of every listed achievement is the first truthy
    value among the user-state entry's [earned_time], [unlock_time] and
    [unlocktime], in that order, and the number 0 when none is truthy.  An
    achievement whose user-state entry is missing or falsy is locked at
    time 0. *)
Theorem unlocktime_first_truthy (achievementsData gameInfo : value)
  (achs : list achievement) (a : achievement) :
  build_achievements achievementsData gameInfo = Ok achs ->
  In a achs ->
  exists achData,
    achData_of achievementsData = Ok achData /\
    let userAch := get_opt achData (apiname a) in
    unlocktime a
    = first_truthy
        [get_opt userAch "earned_time"; get_opt userAch "unlock_time";
         get_opt userAch "unlocktime"]
        (VNum 0%float) /\
    (truthy userAch = false ->
     unlocked a = VBool false /\ unlocktime a = VNum 0%float).
Proof.
  intros H Ha.
  destruct (build_achievements_In _ _ H) as (achData & HachData & Hall).
  exists achData. split; [assumption|].
  destruct (Hall a Ha) as (_ & Hbranch). cbv zeta.
  assert (Hboth :
    unlocktime a
    = first_truthy
        [get_opt (get_opt achData (apiname a)) "earned_time";
         get_opt (get_opt achData (apiname a)) "unlock_time";
         get_opt (get_opt achData (apiname a)) "unlocktime"] (VNum 0%float)
    /\ unlocked a
       = first_truthy
           [get_opt (get_opt achData (apiname a)) "earned";
            get_opt (get_opt achData (apiname a)) "unlocked";
            get_opt (get_opt achData (apiname a)) "achieved"] (VBool false)).
  { destruct (truthy (schema_of (default_null gameInfo))).
    - destruct Hbranch as (achInfo & userAch & _ & Hget & Hbuild).
      apply get_Ok in Hget. destruct Hget as [_ ->].
      split; [eapply schema_achievement_unlocktime
             | eapply schema_achievement_unlocked]; eassumption.
    - destruct Hbranch as (ach & _ & Hget & Hbuild).
      apply get_Ok in Hget. destruct Hget as [_ ->].
      split; [eapply save_achievement_unlocktime
             | eapply save_achievement_unlocked]; eassumption. }
  destruct Hboth as [Ht Hu]. split; [assumption|].
  intros Hfalsy. rewrite Ht, Hu, !falsy_no_props by assumption. split; reflexivity.
Qed.

Lemma unlocktime_first_truthy_witness :
  exists achData,
    achData_of save_times = Ok achData /\
    let userAch := get_opt achData "A" in
    VNum 700%float
    = first_truthy
        [get_opt userAch "earned_time"; get_opt userAch "unlock_time";
         get_opt userAch "unlocktime"]
        (VNum 0%float) /\
    (truthy userAch = false ->
     VBool true = VBool false /\ VNum 700%float = VNum 0%float).
Proof.
  apply (@unlocktime_first_truthy save_times VNull
           [{| apiname := "A"; name := VStr "A"; description := VStr "";
               hidden := VBool false; icon := VStr ""; icongray := VStr "";
               unlocked := VBool true; unlocktime := VNum 700%float;
               rarity := VNull; group := VNull |}]
           {| apiname := "A"; name := VStr "A"; description := VStr "";
              hidden := VBool false; icon := VStr ""; icongray := VStr "";
              unlocked := VBool true; unlocktime := VNum 700%float;
              rarity := VNull; group := VNull |}).
  - reflexivity.
  - left; reflexivity.
Defined.

Lemma for_in_same_metadata (bl : value) (body1 body2 : string -> result achievement)
  (keys : list string) :
  (forall key a1 a2, body1 key = Ok a1 -> body2 key = Ok a2 -> metadata a1 = metadata a2) ->
  forall l1 l2,
    for_in bl body1 keys = Ok l1 -> for_in bl body2 keys = Ok l2 ->
    map metadata l1 = map metadata l2.
Proof.
  intros Hbody. induction keys as [|key keys IH]; simpl; intros l1 l2 H1 H2.
  - inversion H1; inversion H2; reflexivity.
  - destruct (includes bl key) as [[|]|]; simpl in *; try discriminate.
    + apply IH; assumption.
    + bind_inv H1. bind_inv H1. bind_inv H2. bind_inv H2.
      inversion H1; inversion H2; subst. simpl.
      rewrite (Hbody _ _ _ E E1), (IH _ _ E0 E2). reflexivity.
Qed.

Lemma schema_achievement_metadata (key : string) (achInfo u1 u2 : value)
  (a1 a2 : achievement) :
  schema_achievement key achInfo u1 = Ok a1 ->
  schema_achievement key achInfo u2 = Ok a2 ->
  metadata a1 = metadata a2.
Proof.
  unfold schema_achievement. intros H1 H2.
  repeat bind_inv H1. repeat bind_inv H2.
  inversion H1; inversion H2; subst. unfold metadata; simpl.
  congruence.
Qed.

(** X5. In the schema branch the user state decides nothing but [unlocked]
    and [unlocktime]: two user states normalized under the same game info
    give lists that agree, position by position, on apiname, name,
    description, hidden, icon, icongray, rarity and group. *)
Theorem schema_metadata_ignores_user_state (data1 data2 gameInfo : value)
  (achs1 achs2 : list achievement) :
  truthy (schema_of (default_null gameInfo)) = true ->
  build_achievements data1 gameInfo = Ok achs1 ->
  build_achievements data2 gameInfo = Ok achs2 ->
  map metadata achs1 = map metadata achs2.
Proof.
  unfold build_achievements. intros Hmode H1 H2.
  bind_inv H1. bind_inv H2. rewrite Hmode in H1, H2.
  eapply for_in_same_metadata; [|exact H1|exact H2].
  intros key a1 a2 B1 B2. cbv beta in B1, B2.
  bind_inv B1. bind_inv B1. bind_inv B2. bind_inv B2.
  rewrite E1 in E3. inversion E3; subst.
  eapply schema_achievement_metadata; eauto.
Qed.

Lemma schema_metadata_ignores_user_state_witness :
  map metadata
    [{| apiname := "A"; name := VStr "A"; description := VStr "";
        hidden := VBool false; icon := VStr ""; icongray := VStr "";
        unlocked := VBool true; unlocktime := VNum 1000%float;
        rarity := VNum 5%float; group := VNull |}]
  = map metadata
      [{| apiname := "A"; name := VStr "A"; description := VStr "";
          hidden := VBool false; icon := VStr ""; icongray := VStr "";
          unlocked := VBool false; unlocktime := VNum 0%float;
          rarity := VNum 5%float; group := VNull |}].
Proof.
  apply (@schema_metadata_ignores_user_state save_A (VObj [])
           (VObj [("achievements", schema_A)])); reflexivity.
Defined.

(** A user state wrapped as [{achievements: m}] is normalized as [m]
    is, when [m] is truthy and has no truthy [achievements] of its own. *)
Lemma wrapped_user_state (achievementsData m gameInfo : value) :
  get achievementsData "achievements" = Ok m ->
  truthy m = true ->
  truthy (get_opt m "achievements") = false ->
  build_achievements achievementsData gameInfo = build_achievements m gameInfo.
Proof.
  intros Hget Hm Hinner. unfold build_achievements, achData_of.
  rewrite Hget, (get_not_nullish) by (apply truthy_not_nullish; assumption).
  cbn [bind]. unfold or_. rewrite Hm, Hinner. reflexivity.
Qed.

Lemma wrapped_user_state_witness :
  build_achievements (VObj [("achievements", save_A)]) VNull
  = build_achievements save_A VNull.
Proof.
  apply (@wrapped_user_state (VObj [("achievements", save_A)]) save_A VNull);
    reflexivity.
Defined.

(** ** More on objects and the legacy array *)

Lemma has_key_In (k : string) (o : obj) : has_key k o = true <-> In k (map fst o).
Proof.
  induction o as [|[k' v'] o IH]; simpl.
  - split; [discriminate | contradiction].
  - rewrite orb_true_iff, IH, String.eqb_eq. split; intros [H | H]; auto.
Qed.

Lemma replace_prop_keys (k : string) (v : value) (o : obj) :
  map fst (replace_prop k v o) = map fst o.
Proof.
  induction o as [|[k' v'] o IH]; simpl; [reflexivity|].
  destruct (String.eqb k k'); simpl; [reflexivity | rewrite IH; reflexivity].
Qed.

Lemma insert_index_split (n : N) (k : string) (v : value) (o : obj) :
  exists o1 o2, o = o1 ++ o2 /\ insert_index n k v o = o1 ++ (k, v) :: o2.
Proof.
  induction o as [|[k' v'] o IH]; simpl.
  - exists [], []. auto.
  - destruct (array_index k') as [m|]; [destruct (m <? n)%N|].
    + destruct IH as (o1 & o2 & -> & ->). exists ((k', v') :: o1), o2. auto.
    + exists [], ((k', v') :: o). auto.
    + exists [], ((k', v') :: o). auto.
Qed.

(** Where [o[k] = v] leaves the keys: as they were when [k] is one of
    them, with [k] put in somewhere otherwise. *)
Lemma obj_set_keys (k : string) (v : value) (o : obj) :
  (has_key k o = true /\ map fst (obj_set k v o) = map fst o)
  \/ (has_key k o = false /\
      exists l1 l2, map fst o = l1 ++ l2 /\ map fst (obj_set k v o) = l1 ++ k :: l2).
Proof.
  unfold obj_set. destruct (has_key k o) eqn:H.
  - left. split; [reflexivity | apply replace_prop_keys].
  - right. split; [reflexivity|]. destruct (array_index k) as [n|].
    + destruct (insert_index_split n k v o) as (o1 & o2 & -> & ->).
      exists (map fst o1), (map fst o2). rewrite !map_app. auto.
    + exists (map fst o), []. rewrite map_app, app_nil_r. auto.
Qed.

Lemma obj_set_In_key (k k' : string) (v : value) (o : obj) :
  In k' (map fst (obj_set k v o)) <-> k' = k \/ In k' (map fst o).
Proof.
  destruct (obj_set_keys k v o) as [[H ->] | [H (l1 & l2 & -> & ->)]].
  - apply has_key_In in H. split; [auto | intros [-> | ?]; auto].
  - rewrite !in_app_iff. simpl. split; intros; intuition congruence.
Qed.

Lemma obj_set_NoDup (k : string) (v : value) (o : obj) :
  NoDup (map fst o) -> NoDup (map fst (obj_set k v o)).
Proof.
  intros Hnd. destruct (obj_set_keys k v o) as [[H ->] | [H (l1 & l2 & E & ->)]].
  - assumption.
  - assert (Hk : ~ In k (map fst o)).
    { intros Hin. apply has_key_In in Hin. congruence. }
    rewrite E in Hnd, Hk. clear E H. revert Hnd Hk. induction l1 as [|x l1 IH]; simpl; intros Hnd Hk.
    + constructor; assumption.
    + inversion Hnd; subst. constructor.
      * rewrite in_app_iff in *. simpl. intuition congruence.
      * apply IH; [assumption | tauto].
Qed.

Lemma fold_set_NoDup (kvs : list (string * value)) :
  forall o, NoDup (map fst o) ->
  NoDup (map fst (fold_left (fun o kv => obj_set (fst kv) (snd kv) o) kvs o)).
Proof.
  induction kvs as [|kv kvs IH]; simpl; intros o H; [assumption|].
  apply IH, obj_set_NoDup, H.
Qed.

Lemma fold_set_In_key (k : string) (kvs : list (string * value)) :
  forall o,
    In k (map fst (fold_left (fun o kv => obj_set (fst kv) (snd kv) o) kvs o))
    <-> In k (map fst kvs) \/ In k (map fst o).
Proof.
  induction kvs as [|kv kvs IH]; simpl; intros o; [tauto|].
  rewrite IH, obj_set_In_key. split; intros; intuition congruence.
Qed.

Section LegacyMore.
Context {RT : Runtime}.

(** X6. The conversion of a legacy array of records completes when every
    apiname that is truthy converts to a property key, and gives a plain
    object when none of those keys is [__proto__]: its own keys are
    distinct, and it holds a key exactly when some entry with a truthy
    apiname has it for apiname. *)
Theorem convert_legacy_keys (entries : list obj) :
  forallb own_keyed entries = true ->
  exists converted,
    convert_legacy (VArr (map VObj entries)) = Ok (VObj converted) /\
    NoDup (map fst converted) /\
    forall key,
      In key (map fst converted) <->
      exists entry,
        In entry entries /\ truthy (lookup "apiname" entry) = true /\
        to_string (lookup "apiname" entry) = key.
Proof.
  intros H. exists (own_after entries []).
  split; [apply convert_legacy_own_keyed; assumption|].
  destruct (own_keyed_all _ H) as (_ & _ & Hk).
  unfold own_after. rewrite Hk. split.
  - apply fold_set_NoDup. constructor.
  - intros key. rewrite fold_set_In_key. simpl.
    rewrite map_map, in_map_iff. split.
    + intros [(e & <- & He) | []]. apply filter_In in He. destruct He as [He Ha].
      exists e. auto.
    + intros (e & He & Ha & <-). left. exists e. split; [reflexivity|].
      apply filter_In. auto.
Qed.

Lemma find_map {A B : Type} (f : A -> B) (g : B -> bool) (l : list A) :
  find g (map f l) = option_map f (find (fun x => g (f x)) l).
Proof.
  induction l as [|x l IH]; simpl; [reflexivity|].
  destruct (g (f x)); [reflexivity | assumption].
Qed.

Lemma find_filter {A : Type} (p h : A -> bool) (l : list A) :
  find h (filter p l) = find (fun x => p x && h x) l.
Proof.
  induction l as [|x l IH]; simpl; [reflexivity|].
  destruct (p x); simpl; [destruct (h x); [reflexivity | assumption] | assumption].
Qed.

Lemma filter_rev {A : Type} (p : A -> bool) (l : list A) :
  List.rev (filter p l) = filter p (List.rev l).
Proof.
  induction l as [|x l IH]; simpl; [reflexivity|].
  rewrite filter_app, <- IH. simpl. destruct (p x); simpl;
    [reflexivity | rewrite app_nil_r; reflexivity].
Qed.

(** The own property of a key after the turns of entries that all set
    own properties: that of the last entry with the key, if there is
    one. *)
Lemma own_after_lookup (entries : list obj) (key : string) :
  forallb own_keyed entries = true ->
  match find (fun entry => truthy (lookup "apiname" entry)
                           && String.eqb key (legacy_key entry))
          (List.rev entries) with
  | Some entry =>
      lookup key (own_after entries []) = VObj (entry_state entry)
  | None =>
      lookup key (own_after entries []) = VUndef /\
      has_key key (own_after entries []) = false
  end.
Proof.
  intros H. destruct (own_keyed_all _ H) as (_ & _ & Hk).
  unfold own_after. rewrite Hk.
  rewrite lookup_fold_set, <- map_rev, filter_rev, find_map, find_filter.
  change (fun x => truthy (lookup "apiname" x) && String.eqb key (fst (keyed_entry x)))
    with (fun x => truthy (lookup "apiname" x) && String.eqb key (legacy_key x)).
  destruct (find _ (List.rev entries)) as [e|] eqn:F; simpl; [reflexivity|].
  split; [reflexivity|].
  destruct (has_key key _) eqn:K; [|reflexivity].
  apply has_key_In, fold_set_In_key in K. destruct K as [K | []].
  rewrite map_map in K. apply in_map_iff in K. destruct K as (e & <- & He).
  apply filter_In in He. destruct He as [He Ha].
  assert (Hin : In e (List.rev entries)) by (apply -> in_rev; exact He).
  pose proof (find_none _ _ F _ Hin) as N. cbv beta in N.
  unfold keyed_entry in N. simpl in N.
  rewrite Ha, String.eqb_refl in N. discriminate.
Qed.

(** X7. In the plain object such a conversion builds, the own property of
    a key is what the last entry of the array with that apiname gives:
    [earned] is whether its [achieved] is the number 1, [earned_time] its
    [unlocktime] or 0.  The object has no own property under a key that
    no entry has for apiname. *)
Theorem convert_legacy_last_entry_wins (entries : list obj) (key : string) :
  forallb own_keyed entries = true ->
  exists converted,
    convert_legacy (VArr (map VObj entries)) = Ok (VObj converted) /\
    match find (fun entry => truthy (lookup "apiname" entry)
                             && String.eqb key (to_string (lookup "apiname" entry)))
            (List.rev entries) with
    | Some entry =>
        lookup key converted
        = VObj [("earned", VBool (is_one (lookup "achieved" entry)));
                ("earned_time",
                 if truthy (lookup "unlocktime" entry) then lookup "unlocktime" entry
                 else VNum 0%float)]
    | None => has_key key converted = false
    end.
Proof.
  intros H. exists (own_after entries []).
  split; [apply convert_legacy_own_keyed; assumption|].
  pose proof (own_after_lookup entries key H) as L.
  change (fun entry => truthy (lookup "apiname" entry)
                       && String.eqb key (to_string (lookup "apiname" entry)))
    with (fun entry => truthy (lookup "apiname" entry)
                       && String.eqb key (legacy_key entry)).
  destruct (find _ (List.rev entries)) as [e|]; [exact L | apply L].
Qed.

(** X8. A legacy array of records whose turns all set own properties,
    none of them under the key [achievements], is normalized to
    achievements whose [unlocked] is a boolean, in either branch. *)
Theorem legacy_unlocked_is_boolean (entries : list obj) (gameInfo converted : value)
  (achs : list achievement) (a : achievement) :
  forallb own_keyed entries = true ->
  convert_legacy (VArr (map VObj entries)) = Ok converted ->
  get_opt converted "achievements" = VUndef ->
  build_achievements converted gameInfo = Ok achs ->
  In a achs ->
  is_boolean (unlocked a) = true.
Proof.
  intros Hkeyed Hconv Hno H Ha.
  rewrite convert_legacy_own_keyed in Hconv by assumption.
  inversion Hconv; subst converted; clear Hconv.
  destruct (build_achievements_In _ _ H) as (achData & HachData & Hall).
  assert (Hl : lookup "achievements" (own_after entries []) = VUndef) by exact Hno.
  unfold achData_of, get, read in HachData. simpl in HachData.
  rewrite Hl in HachData. inversion HachData; subst achData; clear HachData.
  destruct (Hall a Ha) as (_ & Hbranch).
  assert (Hu : unlocked a =
               first_truthy
                 [get_opt (lookup (apiname a) (own_after entries [])) "earned";
                  get_opt (lookup (apiname a) (own_after entries [])) "unlocked";
                  get_opt (lookup (apiname a) (own_after entries [])) "achieved"]
                 (VBool false)).
  { destruct (truthy (schema_of (default_null gameInfo))).
    - destruct Hbranch as (achInfo & userAch & _ & Hget & Hbuild).
      apply get_Ok in Hget. destruct Hget as [_ ->].
      eapply schema_achievement_unlocked; eassumption.
    - destruct Hbranch as (ach & _ & Hget & Hbuild).
      apply get_Ok in Hget. destruct Hget as [_ ->].
      eapply save_achievement_unlocked; eassumption. }
  rewrite Hu. pose proof (own_after_lookup entries (apiname a) Hkeyed) as L.
  destruct (find _ (List.rev entries)) as [e|].
  - rewrite L. simpl. destruct (is_one (lookup "achieved" e)); reflexivity.
  - destruct L as [-> _]. reflexivity.
Qed.

End LegacyMore.

Lemma convert_legacy_keys_witness :
  exists converted,
    convert_legacy (RT := sample_runtime) (VArr (map VObj legacy_sample))
    = Ok (VObj converted) /\
    NoDup (map fst converted) /\
    forall key,
      In key (map fst converted) <->
      exists entry,
        In entry legacy_sample /\ truthy (lookup "apiname" entry) = true /\
        to_string (RT := sample_runtime) (lookup "apiname" entry) = key.
Proof.
  apply (@convert_legacy_keys sample_runtime legacy_sample). reflexivity.
Defined.

Lemma convert_legacy_last_entry_wins_witness :
  exists converted,
    convert_legacy (RT := sample_runtime) (VArr (map VObj legacy_sample))
    = Ok (VObj converted) /\
    lookup "B" converted
    = VObj [("earned", VBool true); ("earned_time", VNum 900%float)].
Proof.
  apply (@convert_legacy_last_entry_wins sample_runtime legacy_sample "B").
  reflexivity.
Defined.

Lemma legacy_unlocked_is_boolean_witness :
  is_boolean (VBool true) = true.
Proof.
  apply (@legacy_unlocked_is_boolean sample_runtime legacy_sample VNull
           (VObj [("7", VObj [("earned", VBool true); ("earned_time", VNum 500%float)]);
                  ("B", VObj [("earned", VBool true); ("earned_time", VNum 900%float)])])
           [{| apiname := "7"; name := VStr "7"; description := VStr "";
               hidden := VBool false; icon := VStr ""; icongray := VStr "";
               unlocked := VBool true; unlocktime := VNum 500%float;
               rarity := VNull; group := VNull |};
            {| apiname := "B"; name := VStr "B"; description := VStr "";
               hidden := VBool false; icon := VStr ""; icongray := VStr "";
               unlocked := VBool true; unlocktime := VNum 900%float;
               rarity := VNull; group := VNull |}]
           {| apiname := "B"; name := VStr "B"; description := VStr "";
              hidden := VBool false; icon := VStr ""; icongray := VStr "";
              unlocked := VBool true; unlocktime := VNum 900%float;
              rarity := VNull; group := VNull |}).
  - reflexivity.
  - reflexivity.
  - reflexivity.
  - reflexivity.
  - right; left; reflexivity.
Defined.

(** ** More on the comparator *)

Lemma compare_loop_array (own : own_data) (bl : list value) (l : list achievement) :
  blacklist own = VArr bl ->
  nullish (achievementsData own) = false ->
  compare_loop own l
  = Ok (map (fun a => compare_one (get_opt (achievementsData own) (apiname a)) a)
          (compared bl l)).
Proof.
  intros Hbl Hn. unfold compared.
  induction l as [|a l IH]; simpl; [reflexivity|].
  rewrite Hbl. simpl. unfold listed at 1.
  destruct (existsb (is_key (apiname a)) bl); simpl.
  - exact IH.
  - rewrite get_not_nullish by assumption. cbn [bind].
    rewrite IH. reflexivity.
Qed.

(** X9. When the other user's blacklist is an array and their
    achievements data is not [null], the comparison never throws: it has
    data, and holds one record for each achievement of the reference game
    whose key the blacklist does not hold, in the game's order, compared
    with the other user's entry of the same key. *)
Theorem compareAchievements_records (theirGame : game) (own : own_data)
  (bl : list value) :
  blacklist own = VArr bl ->
  nullish (achievementsData own) = false ->
  compareAchievements theirGame (Some own)
  = Ok {| hasData := true;
          comparison :=
            map (fun a => compare_one (get_opt (achievementsData own) (apiname a)) a)
              (compared bl (achievements theirGame)) |}.
Proof.
  intros Hbl Hn. simpl. rewrite (compare_loop_array _ _ Hbl Hn). reflexivity.
Qed.

Lemma compareAchievements_records_witness :
  compareAchievements sample_game (Some sample_own)
  = Ok {| hasData := true;
          comparison :=
            map (fun a => compare_one
                            (get_opt (achievementsData sample_own) (apiname a)) a)
              (compared [VStr "W"] (achievements sample_game)) |}.
Proof.
  apply (@compareAchievements_records sample_game sample_own [VStr "W"]); reflexivity.
Defined.

Lemma compare_loop_nullish (own : own_data) (bl : list value) (l : list achievement) :
  blacklist own = VArr bl ->
  nullish (achievementsData own) = true ->
  compare_loop own l = match compared bl l with [] => Ok [] | _ :: _ => Throw end.
Proof.
  intros Hbl Hn. unfold compared.
  induction l as [|a l IH]; simpl; [reflexivity|].
  rewrite Hbl. simpl. unfold listed at 1.
  destruct (existsb (is_key (apiname a)) bl); simpl.
  - exact IH.
  - rewrite get_nullish by assumption. reflexivity.
Qed.

(** X10. With an array for the other user's blacklist, the comparison
    throws exactly when their achievements data is [null] or [undefined]
    and the blacklist leaves an achievement of the reference game to look
    up. *)
Theorem compareAchievements_throws (theirGame : game) (own : own_data)
  (bl : list value) :
  blacklist own = VArr bl ->
  compareAchievements theirGame (Some own) = Throw <->
  nullish (achievementsData own) = true /\ compared bl (achievements theirGame) <> [].
Proof.
  intros Hbl. simpl. destruct (nullish (achievementsData own)) eqn:Hn.
  - rewrite (compare_loop_nullish _ _ Hbl Hn).
    destruct (compared bl (achievements theirGame)); simpl.
    + split; [discriminate | intros [_ H]; contradiction].
    + split; [intros _; split; [reflexivity | discriminate] | reflexivity].
  - rewrite (compare_loop_array _ _ Hbl Hn). simpl.
    split; [discriminate | intros [H _]; discriminate].
Qed.

Lemma compareAchievements_throws_witness :
  compareAchievements sample_game
    (Some {| achievementsData := VNull; blacklist := VArr [] |}) = Throw.
Proof.
  apply (@compareAchievements_throws sample_game
           {| achievementsData := VNull; blacklist := VArr [] |} []).
  - reflexivity.
  - split; [reflexivity | discriminate].
Defined.

Lemma count_status_map (s : string) (f : achievement -> comparison_record)
  (p : achievement -> bool) (l : list achievement) :
  (forall a, String.eqb (status (f a)) s = p a) ->
  count_status s (map f l) = List.length (filter p l).
Proof.
  intros H. unfold count_status. induction l as [|a l IH]; simpl; [reflexivity|].
  rewrite H. destruct (p a); simpl; rewrite IH; reflexivity.
Qed.

Lemma filter_orb_length {A : Type} (p q : A -> bool) (l : list A) :
  (forall x, p x && q x = false) ->
  List.length (filter p l) + List.length (filter q l)
  = List.length (filter (fun x => p x || q x) l).
Proof.
  intros H. induction l as [|x l IH]; simpl; [reflexivity|].
  specialize (H x). destruct (p x), (q x); simpl in *; try discriminate; lia.
Qed.

(** X11. Under the same conditions the totals of the statistics count
    people's unlocks: [theirTotal] is the number of compared achievements
    the reference game has unlocked ([unlocked] being [true] or 1),
    [yourTotal] the number of those the other user's entry has earned
    ([earned] being [true] or 1); neither exceeds [total]. *)
Theorem comparison_totals (theirGame : game) (own : own_data) (bl : list value)
  (cd : comparison_data) :
  blacklist own = VArr bl ->
  nullish (achievementsData own) = false ->
  compareAchievements theirGame (Some own) = Ok cd ->
  let s := getComparisonStats (comparison cd) in
  let l := compared bl (achievements theirGame) in
  theirTotal s = List.length (filter theyHave l) /\
  yourTotal s
  = List.length (filter (fun a => youHave (get_opt (achievementsData own) (apiname a))) l) /\
  total s = List.length l /\
  theirTotal s <= total s /\ yourTotal s <= total s.
Proof.
  intros Hbl Hn H. simpl in H. rewrite (compare_loop_array _ _ Hbl Hn) in H.
  inversion H; subst cd; clear H. cbv zeta. simpl.
  set (l := compared bl (achievements theirGame)).
  set (f := fun a => compare_one (get_opt (achievementsData own) (apiname a)) a).
  set (you := fun a => youHave (get_opt (achievementsData own) (apiname a))).
  rewrite (count_status_map "both-unlocked" f (fun a => theyHave a && you a) l),
          (count_status_map "they-only" f (fun a => theyHave a && negb (you a)) l),
          (count_status_map "you-only" f (fun a => negb (theyHave a) && you a) l).
  2-4: intros a; unfold f, you; simpl;
       destruct (theyHave a), (youHave _); reflexivity.
  rewrite !filter_orb_length, length_map.
  2-3: intros a; destruct (theyHave a), (you a); reflexivity.
  assert (E1 : forall a, (theyHave a && you a || theyHave a && negb (you a)) = theyHave a)
    by (intros a; destruct (theyHave a), (you a); reflexivity).
  assert (E2 : forall a, (theyHave a && you a || negb (theyHave a) && you a) = you a)
    by (intros a; destruct (theyHave a), (you a); reflexivity).
  rewrite (filter_ext _ _ E1), (filter_ext _ _ E2).
  repeat split; apply filter_length_le.
Qed.

Lemma comparison_totals_witness :
  let s := getComparisonStats
             (map (fun a => compare_one
                              (get_opt (achievementsData sample_own) (apiname a)) a)
                (compared [VStr "W"] (achievements sample_game))) in
  let l := compared [VStr "W"] (achievements sample_game) in
  theirTotal s = List.length (filter theyHave l) /\
  yourTotal s
  = List.length
      (filter (fun a => youHave (get_opt (achievementsData sample_own) (apiname a))) l) /\
  total s = List.length l /\
  theirTotal s <= total s /\ yourTotal s <= total s.
Proof.
  apply (@comparison_totals sample_game sample_own [VStr "W"]
           {| hasData := true;
              comparison :=
                map (fun a => compare_one
                                (get_opt (achievementsData sample_own) (apiname a)) a)
                  (compared [VStr "W"] (achievements sample_game)) |});
    reflexivity.
Defined.

(** X12. A record whose key the other user's data lacks (or holds with a
    falsy value) counts nothing for them: its status is [they-only] when
    the reference game has it unlocked and [both-locked] when not, and its
    [yourUnlockTime] is 0. *)
Theorem absent_on_other_side (theirGame : game) (ownData : option own_data)
  (cd : comparison_data) (r : comparison_record) :
  compareAchievements theirGame ownData = Ok cd ->
  In r (comparison cd) ->
  exists own,
    ownData = Some own /\
    (truthy (get_opt (achievementsData own) (apiname (their r))) = false ->
     status r = (if theyHave (their r) then "they-only" else "both-locked") /\
     yourUnlockTime r = VNum 0%float).
Proof.
  intros H Hr. destruct ownData as [own|]; simpl in H.
  - bind_inv H. inversion H; subst; clear H. simpl in Hr.
    destruct (compare_loop_In _ _ E _ Hr) as (a & o & _ & _ & Hget & ->).
    exists own. split; [reflexivity|]. simpl.
    apply get_Ok in Hget. destruct Hget as [_ ->]. intros Hfalsy.
    unfold youHave. rewrite Hfalsy, !falsy_no_props by assumption.
    split; [destruct (theyHave a); reflexivity | reflexivity].
  - inversion H; subst. contradiction.
Qed.

Lemma absent_on_other_side_witness :
  exists own,
    Some sample_own = Some own /\
    (truthy (get_opt (achievementsData own) "X") = false ->
     "they-only" = (if theyHave (sample_achievement "X" (VBool true))
                    then "they-only" else "both-locked") /\
     VNum 0%float = VNum 0%float).
Proof.
  apply (@absent_on_other_side sample_game (Some sample_own)
           {| hasData := true;
              comparison :=
                map (fun a => compare_one
                                (get_opt (achievementsData sample_own) (apiname a)) a)
                  (compared [VStr "W"] (achievements sample_game)) |}
           (compare_one VUndef (sample_achievement "X" (VBool true)))).
  - reflexivity.
  - left; reflexivity.
Defined.

(** ** The comparison cache *)

Lemma cache_get_replace (k : string) (v w : option own_data) (c : comparison_cache) :
  cache_get k c = Some w -> cache_get k (cache_replace k v c) = Some v.
Proof.
  induction c as [|[k' v'] c IH]; simpl; [discriminate|].
  destruct (String.eqb k k') eqn:K; simpl; rewrite K; [reflexivity | exact IH].
Qed.

Lemma cache_get_app_new (k : string) (v : option own_data) (c : comparison_cache) :
  cache_get k c = None -> cache_get k (c ++ [(k, v)]) = Some v.
Proof.
  induction c as [|[k' v'] c IH]; simpl.
  - rewrite String.eqb_refl. reflexivity.
  - destruct (String.eqb k k'); [discriminate | exact IH].
Qed.

Lemma cache_get_set (k : string) (v : option own_data) (c : comparison_cache) :
  cache_get k (cache_set k v c) = Some v.
Proof.
  unfold cache_set. destruct (cache_get k c) eqn:G.
  - eapply cache_get_replace; eauto.
  - apply cache_get_app_new; assumption.
Qed.

Section OwnData.
Context {RT : Runtime}.

Lemma own_from_body_cache (cacheKey : string) (cache : comparison_cache)
  (files : list own_file) (body : string) (info : reply) :
  cache_after (own_from_body cacheKey cache files body info)
  = cache_set cacheKey (own_result (own_from_body cacheKey cache files body info)) cache.
Proof.
  unfold own_from_body.
  destruct (data <- json body;; convert_legacy data); reflexivity.
Qed.

(** X13. [loadOwnGameData] remembers what it returned: after a call for a
    visitor and an appId, a second call for the two returns the same,
    [null] after a failure included, asks the network for nothing and
    leaves the cache as it is, whatever the network would answer now. *)
Theorem loadOwnGameData_memoized (visitor : option string) (id : string)
  (r r' : app_replies) (cache : comparison_cache) :
  truthy_item visitor = true ->
  let first := loadOwnGameData visitor id r cache in
  loadOwnGameData visitor id r' (cache_after first)
  = {| own_result := own_result first; cache_after := cache_after first;
       files_asked := [] |}.
Proof.
  intros Hv. cbv zeta.
  assert (Hkey : cache_get (item_text visitor ++ "_" ++ id)%string
                   (cache_after (loadOwnGameData visitor id r cache))
                 = Some (own_result (loadOwnGameData visitor id r cache))).
  { unfold loadOwnGameData. rewrite Hv.
    destruct (cache_get (item_text visitor ++ "_" ++ id)%string cache) eqn:G;
      [exact G|].
    destruct (achievements_json r) as [|s b];
      [apply cache_get_set|].
    destruct (ok s); [rewrite own_from_body_cache; apply cache_get_set|].
    destruct (db_file r) as [|s' b']; [apply cache_get_set|].
    destruct (ok s'); [rewrite own_from_body_cache|]; apply cache_get_set. }
  unfold loadOwnGameData at 1. rewrite Hv, Hkey. reflexivity.
Qed.

End OwnData.

Lemma loadOwnGameData_memoized_witness :
  let first := loadOwnGameData (RT := sample_runtime) (Some "visitor") "10"
                 unreachable [] in
  loadOwnGameData (RT := sample_runtime) (Some "visitor") "10" reachable
    (cache_after first)
  = {| own_result := None; cache_after := [("visitor_10", None)];
       files_asked := [] |}.
Proof.
  apply (@loadOwnGameData_memoized sample_runtime (Some "visitor") "10"
           unreachable reachable []).
  reflexivity.
Defined.

(** ** More on the cache *)

Section CacheMore.
Context {RT : Runtime}.

(** Which payloads pass the shape check, and with what. *)
Lemma wire_shape_Ok (data games : value) (lastUpdated : option value) :
  wire_shape data = Ok (games, lastUpdated) <->
  (is_array data = true /\ games = data /\ lastUpdated = None)
  \/ (is_array data = false /\ nullish data = false /\
      games = get_opt data "games" /\ is_array games = true /\
      lastUpdated = Some (get_opt data "last_updated") /\
      (truthy (get_opt data "last_updated") = true ->
       convertible (get_opt data "last_updated") = true)).
Proof.
  unfold wire_shape, get, get_opt. destruct (is_array data) eqn:A.
  - split.
    + intros H. inversion H; subst. left. auto.
    + intros [(_ & -> & ->) | (H & _)]; [reflexivity | discriminate].
  - destruct (nullish data) eqn:N; cbn [bind].
    + split; [discriminate | intros [(H & _) | (_ & H & _)]; discriminate].
    + destruct (is_array (read data "games")) eqn:G.
      * assert (T : truthy (read data "games") = true)
          by (destruct (read data "games"); try discriminate G; reflexivity).
        rewrite T. cbn [andb].
        destruct (truthy (read data "last_updated")) eqn:L; cbn [andb].
        -- destruct (convertible (read data "last_updated")) eqn:C; cbn [negb].
           ++ split.
              ** intros H. inversion H; subst. right. auto 10.
              ** intros [(H & _) | (_ & _ & -> & _ & -> & _)];
                   [discriminate | reflexivity].
           ++ split; [discriminate|].
              intros [(H & _) | (_ & _ & _ & _ & _ & H)]; [discriminate|].
              discriminate (H eq_refl).
        -- split.
           ++ intros H. inversion H; subst. right.
              repeat (split; [auto; fail|]). discriminate.
           ++ intros [(H & _) | (_ & _ & -> & _ & -> & _)];
                [discriminate | reflexivity].
      * rewrite andb_false_r. split; [discriminate|].
        intros [(H & _) | (_ & _ & -> & H & _)]; [discriminate|]. congruence.
Qed.

Lemma wire_shape_convertible (data games t : value) :
  wire_shape data = Ok (games, Some t) ->
  truthy t = true ->
  js_string t = Ok (to_string t).
Proof.
  intros H T. apply wire_shape_Ok in H.
  destruct H as [(_ & _ & H) | (_ & _ & _ & _ & H & C)]; [discriminate|].
  inversion H; subst t. unfold js_string. rewrite (C T). reflexivity.
Qed.

(** X14. When the server ignores the [Range] header and answers 200 with
    the whole file, the loader uses that answer and sends no second
    request.  It returns the games of the payload when the payload passes
    the shape check, and ends in its catch, the storage untouched, when
    not; a payload with a games array fails the check when its
    [last_updated] is truthy and does not convert to a number. *)
Theorem range_ignored_no_second_request (w : world) (body : string) (data : value) :
  range_reply w = Response 200 body ->
  JSON_parse body = Some data ->
  requests (loadGameDataWithCache w) = [RangeRequest] /\
  (forall games lastUpdated,
     wire_shape data = Ok (games, lastUpdated) ->
     returned (loadGameDataWithCache w) = Ok games /\
     store_after (loadGameDataWithCache w) = updateCache w games lastUpdated) /\
  (wire_shape data = Throw ->
   returned (loadGameDataWithCache w) = fallback w /\
   store_after (loadGameDataWithCache w) = store w) /\
  (is_array data = false ->
   truthy (get_opt data "last_updated") = true ->
   convertible (get_opt data "last_updated") = false ->
   wire_shape data = Throw).
Proof.
  intros Hreply Hparse. unfold loadGameDataWithCache, smartCheck.
  rewrite Hreply. simpl. rewrite Hparse.
  split; [|split; [|split]].
  - destruct (wire_shape data) as [[games lu]|]; reflexivity.
  - intros g l H. rewrite H. auto.
  - intros H. rewrite H. auto.
  - intros A T C. destruct (wire_shape data) as [[games lu]|] eqn:W; [|reflexivity].
    apply wire_shape_Ok in W.
    destruct W as [(H & _) | (_ & _ & _ & _ & _ & H)]; [congruence|].
    rewrite (H T) in C. discriminate.
Qed.

(** X15. When the range check answers 206 and the pattern extracts a
    timestamp other than the cached one, or none, the loader sends the
    full request, and returns the games of its payload when the payload
    passes the shape check. *)
Theorem changed_timestamp_fetches (w : world) (text : string) :
  range_reply w = Response 206 text ->
  match match_last_updated text with
  | Some serverTimestamp => cached_timestamp (store w) <> Some serverTimestamp
  | None => True
  end ->
  requests (loadGameDataWithCache w) = [RangeRequest; FullRequest] /\
  (forall data games lastUpdated,
     fullFetch w = Ok data ->
     wire_shape data = Ok (games, lastUpdated) ->
     returned (loadGameDataWithCache w) = Ok games /\
     store_after (loadGameDataWithCache w) = updateCache w games lastUpdated) /\
  (forall data,
     fullFetch w = Ok data ->
     wire_shape data = Throw ->
     returned (loadGameDataWithCache w) = fallback w /\
     store_after (loadGameDataWithCache w) = store w).
Proof.
  intros Hreply Hts.
  assert (Hs : smartCheck w = NeedsFullFetch).
  { unfold smartCheck. rewrite Hreply. simpl.
    destruct (match_last_updated text) as [ts|]; [|reflexivity].
    assert (Hi : item_is (cached_timestamp (store w)) ts = false).
    { unfold item_is. destruct (cached_timestamp (store w)) as [s|]; [|reflexivity].
      apply String.eqb_neq. congruence. }
    rewrite Hi, !andb_false_r. reflexivity. }
  unfold loadGameDataWithCache. rewrite Hs. split; [|split].
  - destruct (data <- fullFetch w;; wire_shape data) as [[g l]|]; reflexivity.
  - intros data games lu Hf Hshape. rewrite Hf. simpl. rewrite Hshape. auto.
  - intros data Hf Hshape. rewrite Hf. simpl. rewrite Hshape. auto.
Qed.

(** X16. A payload in the old format, a bare array, is returned as it is
    and nothing is written to the storage. *)
Theorem old_format_not_cached (w : world) (data : value) :
  fetched w data ->
  is_array data = true ->
  returned (loadGameDataWithCache w) = Ok data /\
  store_after (loadGameDataWithCache w) = store w.
Proof.
  intros Hf Harr.
  assert (Hshape : wire_shape data = Ok (data, None)).
  { unfold wire_shape. rewrite Harr. reflexivity. }
  unfold loadGameDataWithCache.
  destruct Hf as [Hs | [Hs Hfull]]; rewrite Hs.
  - rewrite Hshape. split; reflexivity.
  - rewrite Hfull. simpl. rewrite Hshape. split; reflexivity.
Qed.

(** X17. Whether the storage has room changes neither what the loader
    returns nor what it requests: a [setItem] that throws is caught. *)
Theorem quota_does_not_change_result (w : world) (room : string -> bool) :
  returned (loadGameDataWithCache (with_room w room))
  = returned (loadGameDataWithCache w) /\
  requests (loadGameDataWithCache (with_room w room))
  = requests (loadGameDataWithCache w).
Proof.
  unfold loadGameDataWithCache.
  change (smartCheck (with_room w room)) with (smartCheck w).
  change (fullFetch (with_room w room)) with (fullFetch w).
  change (fallback (with_room w room)) with (fallback w).
  destruct (smartCheck w) as [g|data|].
  - split; reflexivity.
  - destruct (wire_shape data) as [[g l]|]; split; reflexivity.
  - destruct (data <- fullFetch w;; wire_shape data) as [[g l]|]; split; reflexivity.
Qed.

Lemma fetched_new_format (w : world) (data games t : value) :
  fetched w data ->
  wire_shape data = Ok (games, Some t) ->
  returned (loadGameDataWithCache w) = Ok games /\
  store_after (loadGameDataWithCache w) = updateCache w games (Some t).
Proof.
  intros Hf Hshape. unfold loadGameDataWithCache.
  destruct Hf as [Hs | [Hs Hfull]]; rewrite Hs.
  - rewrite Hshape. split; reflexivity.
  - rewrite Hfull. simpl. rewrite Hshape. split; reflexivity.
Qed.

Lemma serve_from_store (w : world) (timestamp cached text : string) (games : value) :
  store w = {| cached_timestamp := Some timestamp; cached_games := Some cached |} ->
  timestamp <> "" ->
  cached <> "" ->
  JSON_parse cached = Some games ->
  range_reply w = Response 206 text ->
  match_last_updated text = Some timestamp ->
  loadGameDataWithCache w
  = {| returned := Ok games; requests := [RangeRequest]; store_after := store w |}.
Proof.
  intros Hstore Hts_ne Hne Hparse Hreply Hmatch.
  unfold loadGameDataWithCache.
  rewrite (@smartCheck_same_timestamp _ w timestamp cached text), Hparse;
    [reflexivity | | assumption | | assumption | assumption | assumption];
    rewrite Hstore; reflexivity.
Qed.

(** X18. What a run stores, the next run serves: after a payload in the
    current format with a truthy [last_updated] has been fetched and the
    storage had room for it, a run for which the pattern extracts that
    timestamp from the server's answer returns the stored games after the
    range request alone, provided [JSON.parse] reads back what
    [JSON.stringify] wrote. *)
Theorem stored_games_served_next (w w' : world) (data games t : value) (text : string) :
  fetched w data ->
  wire_shape data = Ok (games, Some t) ->
  truthy t = true ->
  to_string t <> "" ->
  has_room w (to_string t) = true ->
  has_room w (JSON_stringify games) = true ->
  store w' = store_after (loadGameDataWithCache w) ->
  range_reply w' = Response 206 text ->
  match_last_updated text = Some (to_string t) ->
  JSON_stringify games <> "" ->
  JSON_parse (JSON_stringify games) = Some games ->
  returned (loadGameDataWithCache w) = Ok games /\
  store_after (loadGameDataWithCache w)
  = {| cached_timestamp := Some (to_string t);
       cached_games := Some (JSON_stringify games) |} /\
  loadGameDataWithCache w'
  = {| returned := Ok games; requests := [RangeRequest]; store_after := store w' |}.
Proof.
  intros Hf Hshape Ht Hts_ne Hr1 Hr2 Hstore Hreply Hmatch Hne Hround.
  destruct (@fetched_new_format w data games t Hf Hshape) as [Hret Hafter].
  split; [assumption|].
  unfold updateCache in Hafter.
  rewrite Ht, (@wire_shape_convertible data games t Hshape Ht), Hr1, Hr2 in Hafter.
  split; [assumption|].
  rewrite Hafter in Hstore.
  eapply serve_from_store; eauto.
Qed.

(** X19. When the storage has room for the timestamp but not for the
    games, the new timestamp is stored beside the old games; a later run
    for which the pattern extracts that timestamp from the server's
    answer then returns the old games. *)
Theorem timestamp_stored_without_games (w w' : world) (data games t old : value)
  (cached text : string) :
  fetched w data ->
  wire_shape data = Ok (games, Some t) ->
  truthy t = true ->
  to_string t <> "" ->
  has_room w (to_string t) = true ->
  has_room w (JSON_stringify games) = false ->
  cached_games (store w) = Some cached ->
  cached <> "" ->
  JSON_parse cached = Some old ->
  store w' = store_after (loadGameDataWithCache w) ->
  range_reply w' = Response 206 text ->
  match_last_updated text = Some (to_string t) ->
  store_after (loadGameDataWithCache w)
  = {| cached_timestamp := Some (to_string t); cached_games := Some cached |} /\
  returned (loadGameDataWithCache w') = Ok old.
Proof.
  intros Hf Hshape Ht Hts_ne Hr1 Hr2 Hcached Hne Hparse Hstore Hreply Hmatch.
  destruct (@fetched_new_format w data games t Hf Hshape) as [_ Hafter].
  assert (Hs : store_after (loadGameDataWithCache w)
               = {| cached_timestamp := Some (to_string t);
                    cached_games := Some cached |}).
  { rewrite Hafter. unfold updateCache.
    rewrite Ht, (@wire_shape_convertible data games t Hshape Ht), Hr1, Hr2, Hcached. reflexivity. }
  split; [assumption|].
  rewrite Hs in Hstore.
  rewrite (@serve_from_store w' (to_string t) cached text old Hstore Hts_ne Hne Hparse
             Hreply Hmatch).
  reflexivity.
Qed.

(** X20. When the smart check leaves the full fetch to do and the full
    fetch fails, cached games are returned only if their timestamp reads
    as a number less than an hour before now: with a timestamp an hour
    old or more, or one [parseInt] makes nothing of, the loader throws. *)
Theorem stale_cache_not_served (w : world) :
  smartCheck w = NeedsFullFetch ->
  fullFetch w = Throw ->
  match parseInt (item_text (cached_timestamp (store w))) with
  | Some t => (CACHE_MAX_AGE <= (now_ms w / 1000 - t) * 1000)%Z
  | None => True
  end ->
  returned (loadGameDataWithCache w) = Throw.
Proof.
  intros Hs Hf Hold. unfold loadGameDataWithCache. rewrite Hs, Hf. simpl.
  unfold fallback.
  destruct (truthy_item (cached_games (store w))
            && truthy_item (cached_timestamp (store w))); [|reflexivity].
  destruct (parseInt (item_text (cached_timestamp (store w)))) as [t|]; [|reflexivity].
  apply Z.ltb_ge in Hold. rewrite Hold. reflexivity.
Qed.

End CacheMore.

(** The log line of the current format is outside the try of the cache
    update: a [last_updated] that does not convert to a number sends the
    run to the catch, though the games are there. *)
Example undated_payload_throws :
  wire_shape undated = Throw /\
  (forall (RT : Runtime) (w : world) (body : string),
     range_reply w = Response 200 body ->
     JSON_parse body = Some undated ->
     returned (loadGameDataWithCache w) = fallback w).
Proof.
  split; [reflexivity|]. intros RT w body Hreply Hparse.
  unfold loadGameDataWithCache, smartCheck. rewrite Hreply. simpl. rewrite Hparse.
  reflexivity.
Qed.

Lemma range_ignored_no_second_request_witness :
  requests (loadGameDataWithCache (RT := manifest_runtime) ignoring_world)
  = [RangeRequest] /\
  returned (loadGameDataWithCache (RT := manifest_runtime) ignoring_world)
  = Ok (VArr []) /\
  store_after (loadGameDataWithCache (RT := manifest_runtime) ignoring_world)
  = store ignoring_world.
Proof.
  destruct (@range_ignored_no_second_request manifest_runtime ignoring_world "[]"
              (VArr []) eq_refl eq_refl) as (Hreq & Hok & _).
  exact (conj Hreq (Hok (VArr []) None eq_refl)).
Defined.

Lemma changed_timestamp_fetches_witness :
  requests (loadGameDataWithCache (RT := manifest_runtime) (update_world (fun _ => true)))
  = [RangeRequest; FullRequest] /\
  returned (loadGameDataWithCache (RT := manifest_runtime)
              (update_world (fun _ => true))) = Ok sample_games.
Proof.
  assert (Hts : match match_last_updated (Runtime := manifest_runtime) newer_head with
                | Some serverTimestamp =>
                    cached_timestamp (store (update_world (fun _ => true)))
                    <> Some serverTimestamp
                | None => True
                end) by (vm_compute; discriminate).
  destruct (@changed_timestamp_fetches manifest_runtime (update_world (fun _ => true))
              newer_head eq_refl Hts) as (Hreq & Hok & _).
  exact (conj Hreq
           (proj1 (Hok (VObj [("games", sample_games);
                              ("last_updated", VStr "1700000050")])
                       sample_games (Some (VStr "1700000050")) eq_refl eq_refl))).
Defined.

Lemma old_format_not_cached_witness :
  returned (loadGameDataWithCache (RT := manifest_runtime) ignoring_world)
  = Ok (VArr []) /\
  store_after (loadGameDataWithCache (RT := manifest_runtime) ignoring_world)
  = store ignoring_world.
Proof.
  apply (@old_format_not_cached manifest_runtime ignoring_world (VArr [])).
  - left. reflexivity.
  - reflexivity.
Defined.

Lemma stored_games_served_next_witness :
  returned (loadGameDataWithCache (RT := manifest_runtime)
              (update_world (fun _ => true))) = Ok sample_games /\
  store_after (loadGameDataWithCache (RT := manifest_runtime)
                 (update_world (fun _ => true)))
  = {| cached_timestamp := Some "1700000050"; cached_games := Some "GAMES" |} /\
  loadGameDataWithCache (RT := manifest_runtime)
    (next_world (store_after (loadGameDataWithCache (RT := manifest_runtime)
                                (update_world (fun _ => true)))))
  = {| returned := Ok sample_games; requests := [RangeRequest];
       store_after :=
         {| cached_timestamp := Some "1700000050"; cached_games := Some "GAMES" |} |}.
Proof.
  apply (@stored_games_served_next manifest_runtime (update_world (fun _ => true))
           (next_world (store_after (loadGameDataWithCache (RT := manifest_runtime)
                                       (update_world (fun _ => true)))))
           (VObj [("games", sample_games); ("last_updated", VStr "1700000050")])
           sample_games (VStr "1700000050") newer_head);
    try reflexivity; try discriminate.
  right. split; reflexivity.
Defined.

Lemma timestamp_stored_without_games_witness :
  store_after (loadGameDataWithCache (RT := manifest_runtime)
                 (update_world (fun s => negb (String.eqb s "GAMES"))))
  = {| cached_timestamp := Some "1700000050"; cached_games := Some "OLD" |} /\
  returned (loadGameDataWithCache (RT := manifest_runtime)
              (next_world
                 (store_after (loadGameDataWithCache (RT := manifest_runtime)
                                 (update_world (fun s => negb (String.eqb s "GAMES")))))))
  = Ok (VArr []).
Proof.
  apply (@timestamp_stored_without_games manifest_runtime
           (update_world (fun s => negb (String.eqb s "GAMES")))
           (next_world
              (store_after (loadGameDataWithCache (RT := manifest_runtime)
                              (update_world (fun s => negb (String.eqb s "GAMES"))))))
           (VObj [("games", sample_games); ("last_updated", VStr "1700000050")])
           sample_games (VStr "1700000050") (VArr []) "OLD" newer_head);
    try reflexivity; try discriminate.
  right. split; reflexivity.
Defined.

Lemma stale_cache_not_served_witness :
  returned (loadGameDataWithCache (RT := sample_runtime) offline_world) = Throw.
Proof.
  apply (@stale_cache_not_served sample_runtime offline_world).
  - reflexivity.
  - reflexivity.
  - vm_compute. discriminate.
Defined.

(** ** More on the hub *)

Lemma count_game_bounds (g : value) (c : counts) :
  count_game g = Ok c ->
  earnedCount c <= totalCount c /\
  (canDeterminePerfect c = true -> hasFullSchema (hub_info g) = true).
Proof.
  unfold count_game, hub_info. intros H. bind_inv H. bind_inv H.
  apply get_Ok in E. destruct E as [_ ->].
  destruct (hasFullSchema (or_ (get_opt g "info") g)).
  - bind_inv H. inversion H; subst; clear H. simpl.
    split; [apply filter_length_le | reflexivity].
  - inversion H; subst; clear H. simpl.
    split; [apply filter_length_le | discriminate].
Qed.

Lemma count_games_bounds (games : list value) :
  forall acc p,
    count_games games acc = Ok p ->
    gameData p = gameData acc /\
    totalGames p = totalGames acc /\
    (earnedAchievements acc <= totalAchievements acc ->
     earnedAchievements p <= totalAchievements p) /\
    perfectGames p
    <= perfectGames acc
       + List.length (filter (fun g => hasFullSchema (hub_info g)) games).
Proof.
  induction games as [|g games IH]; simpl; intros acc p H.
  - inversion H; subst. repeat split; auto; lia.
  - bind_inv H. destruct (count_game_bounds _ E) as [Hle Hfull].
    destruct (IH _ _ H) as (Hd & Hg & He & Hp). simpl in *.
    split; [assumption|]. split; [assumption|]. split; [intros; apply He; lia|].
    destruct (canDeterminePerfect x) eqn:C.
    + rewrite (Hfull eq_refl). simpl.
      match type of Hp with context [if ?c then _ else _] => destruct c end; lia.
    + simpl in Hp. destruct (hasFullSchema (hub_info g)); simpl; lia.
Qed.

Section Hub.
Context {RT : Runtime}.

(** X22. Whatever the network answers, the hub's record of a profile
    counts no more earned achievements than achievements and no more
    perfect games than games. *)
Theorem hub_counts_bounded (r : reply) :
  earnedAchievements (loadGameData r) <= totalAchievements (loadGameData r) /\
  perfectGames (loadGameData r) <= totalGames (loadGameData r).
Proof.
  unfold loadGameData. destruct r as [|status body]; simpl; [lia|].
  destruct (if ok status then json body else Ok VNull) as [data|]; simpl; [|lia].
  destruct (negb (truthy data)); simpl; [lia|].
  destruct (games_of data) as [games|]; simpl; [|lia].
  destruct (count_games games _) as [p|] eqn:C; simpl; [|lia].
  destruct (count_games_bounds _ _ C) as (_ & Hg & He & Hp). simpl in *.
  split; [apply He; lia|].
  rewrite Hg. pose proof (filter_length_le (fun g => hasFullSchema (hub_info g)) games).
  lia.
Qed.

(** X23. The hub counts a game perfect only when its info has a schema
    with at least one key: a profile none of whose games has one has no
    perfect game, whatever it has earned. *)
Theorem hub_perfect_needs_schema (status : Z) (body : string) (data : value)
  (games : list value) :
  ok status = true ->
  JSON_parse body = Some data ->
  games_of data = Some games ->
  forallb (fun g => negb (hasFullSchema (hub_info g))) games = true ->
  perfectGames (loadGameData (Response status body)) = 0.
Proof.
  intros Hok Hparse Hgames Hnone. unfold loadGameData, json.
  rewrite Hok, Hparse. destruct (negb (truthy data)); [reflexivity|].
  rewrite Hgames. destruct (count_games games _) as [p|] eqn:C; [|reflexivity].
  destruct (count_games_bounds _ _ C) as (_ & _ & _ & Hp). simpl in Hp.
  assert (Hz : filter (fun g => hasFullSchema (hub_info g)) games = []).
  { clear - Hnone. induction games as [|g games IH]; simpl in *; [reflexivity|].
    apply andb_true_iff in Hnone. destruct Hnone as [Hg Hrest].
    apply negb_true_iff in Hg. rewrite Hg. apply IH. assumption. }
  rewrite Hz in Hp. simpl in Hp. lia.
Qed.

End Hub.

Lemma hub_perfect_needs_schema_witness :
  perfectGames (loadGameData (RT := hub_manifest_runtime) (Response 200 "SAVES")) = 0.
Proof.
  apply (@hub_perfect_needs_schema hub_manifest_runtime 200 "SAVES"
           (VArr [VObj [("appid", VStr "10"); ("achievements", save_A);
                        ("info", VObj [("name", VStr "Ten")])];
                  VObj [("appid", VStr "12"); ("achievements", save_AB);
                        ("info", VObj [("name", VStr "Twelve")])]])
           [VObj [("appid", VStr "10"); ("achievements", save_A);
                  ("info", VObj [("name", VStr "Ten")])];
            VObj [("appid", VStr "12"); ("achievements", save_AB);
                  ("info", VObj [("name", VStr "Twelve")])]]);
    reflexivity.
Defined.

Lemma for_in_valid_keys (bl : value) (body : string -> result achievement)
  (keys : list string) (l : list achievement) :
  for_in bl body keys = Ok l ->
  valid_keys bl keys = Ok (filter (passes bl) keys).
Proof.
  revert l. induction keys as [|key keys IH]; simpl; intros l H; [reflexivity|].
  unfold passes at 1. bind_inv H. rewrite E. simpl. destruct x.
  - rewrite (IH _ H). reflexivity.
  - bind_inv H. bind_inv H. rewrite (IH _ E1). reflexivity.
Qed.

(** X24. For a game whose info has a schema with at least one key, the
    hub's total is the number of achievements the viewer lists for it:
    both go through the schema keys and leave out what the blacklist
    holds. *)
Theorem hub_total_is_viewer_total (g info achs : value) (l : list achievement) :
  get g "info" = Ok info ->
  get g "achievements" = Ok achs ->
  hasFullSchema info = true ->
  build_achievements achs info = Ok l ->
  exists c, count_game g = Ok c /\ totalCount c = List.length l.
Proof.
  intros Hinfo Hachs Hfull H.
  assert (Ht : truthy info = true).
  { unfold hasFullSchema in Hfull. destruct (truthy info); [reflexivity | discriminate]. }
  assert (Hs : truthy (get_opt info "achievements") = true).
  { unfold hasFullSchema in Hfull. rewrite Ht in Hfull.
    destruct (truthy (get_opt info "achievements")); [reflexivity | discriminate]. }
  assert (Hd : default_null info = info) by (destruct info; try reflexivity; discriminate).
  unfold build_achievements in H. bind_inv H. rewrite Hd in H.
  unfold schema_of in H. rewrite Ht, Hs in H.
  pose proof (for_in_valid_keys _ _ _ H) as Hv.
  pose proof (for_in_keys _ _ _ (fun key a => @schema_body_apiname _ _ key a) H) as Hk.
  assert (Ho : or_ info g = info) by (unfold or_; rewrite Ht; reflexivity).
  unfold count_game. rewrite Hinfo, Hachs. cbn [bind]. cbv zeta.
  rewrite !Ho, Hfull.
  change (or_ (get_opt info "blacklist") (VArr [])) with (blacklist_of info).
  rewrite Hv. cbn [bind]. eexists. split; [reflexivity|]. simpl.
  rewrite <- Hk, length_map. reflexivity.
Qed.

Lemma hub_total_is_viewer_total_witness :
  exists c, count_game schema_game = Ok c /\ totalCount c = 2.
Proof.
  apply (@hub_total_is_viewer_total schema_game
           (VObj [("achievements",
                   VObj [("A", VObj [("name", VStr "First")]);
                         ("B", VObj [("name", VStr "Second")]);
                         ("C", VObj [("name", VStr "Third")])]);
                  ("blacklist", VArr [VStr "B"])])
           save_AB
           [{| apiname := "A"; name := VStr "First"; description := VStr "";
               hidden := VBool false; icon := VStr ""; icongray := VStr "";
               unlocked := VBool true; unlocktime := VNum 0%float;
               rarity := VNull; group := VNull |};
            {| apiname := "C"; name := VStr "Third"; description := VStr "";
               hidden := VBool false; icon := VStr ""; icongray := VStr "";
               unlocked := VBool false; unlocktime := VNum 0%float;
               rarity := VNull; group := VNull |}]); reflexivity.
Defined.

(** ** More on the collection *)

Lemma map_has_In (k : string) (m : games_map) : map_has k m = true <-> In k (map fst m).
Proof.
  induction m as [|[k' g'] m IH]; simpl.
  - split; [discriminate | contradiction].
  - rewrite orb_true_iff, IH, String.eqb_eq. split; intros [H | H]; auto.
Qed.

Lemma map_replace_keys (k : string) (g : game) (m : games_map) :
  map fst (map_replace k g m) = map fst m.
Proof.
  induction m as [|[k' g'] m IH]; simpl; [reflexivity|].
  destruct (String.eqb k k'); simpl; [reflexivity | rewrite IH; reflexivity].
Qed.

Lemma map_set_keys (k : string) (g : game) (m : games_map) :
  map fst (map_set k g m) = if map_has k m then map fst m else map fst m ++ [k].
Proof.
  unfold map_set. destruct (map_has k m).
  - apply map_replace_keys.
  - rewrite map_app. reflexivity.
Qed.

Lemma map_get_set (k : string) (g : game) (m : games_map) :
  map_get k (map_set k g m) = Some g.
Proof.
  unfold map_set. destruct (map_has k m) eqn:H.
  - induction m as [|[k' g'] m IH]; simpl in *; [discriminate|].
    destruct (String.eqb k k') eqn:K; simpl; rewrite K; [reflexivity|].
    apply IH. assumption.
  - induction m as [|[k' g'] m IH]; simpl in *.
    + rewrite String.eqb_refl. reflexivity.
    + destruct (String.eqb k k'); [discriminate | apply IH; assumption].
Qed.

(** X25. An appId the collection does not hold yet goes to its end: the
    entries it had stay in front, in their order. *)
Theorem processGameData_appends_new (id : string) (achievementsData gameInfo : value)
  (gamesData : games_map) (achs : list achievement) :
  map_has id gamesData = false ->
  build_achievements achievementsData gameInfo = Ok achs ->
  exists g,
    processGameData id achievementsData gameInfo gamesData
    = Ok (gamesData ++ [(id, g)]) /\
    appId g = id /\ achievements g = achs.
Proof.
  intros Hnew Hbuild. unfold processGameData, map_set.
  rewrite Hbuild, Hnew. simpl. eexists. split; [reflexivity|]. split; reflexivity.
Qed.

Lemma processGameData_appends_new_witness :
  exists g,
    processGameData "99" save_A VNull sample_map = Ok (sample_map ++ [("99", g)]) /\
    appId g = "99" /\
    achievements g =
      [{| apiname := "A"; name := VStr "A"; description := VStr "";
          hidden := VBool false; icon := VStr ""; icongray := VStr "";
          unlocked := VBool true; unlocktime := VNum 1000%float;
          rarity := VNull; group := VNull |}].
Proof.
  apply (@processGameData_appends_new "99" save_A VNull sample_map); reflexivity.
Defined.

Lemma processGameData_keys (id : string) (achievementsData gameInfo : value)
  (m m' : games_map) :
  processGameData id achievementsData gameInfo m = Ok m' ->
  map fst m' = if map_has id m then map fst m else map fst m ++ [id].
Proof.
  unfold processGameData. intros H. bind_inv H. inversion H; subst.
  apply map_set_keys.
Qed.

Section Collection.
Context {RT : Runtime}.

Lemma load_app_keys (m : games_map) (app : string * app_replies) :
  map fst (load_app m app) = map fst m
  \/ (map_has (fst app) m = false /\ map fst (load_app m app) = map fst m ++ [fst app]).
Proof.
  destruct app as [id r]. unfold load_app. simpl.
  destruct (ach_body r) as [[b|]|]; simpl; auto.
  destruct (json b) as [d|]; simpl; auto.
  destruct (convert_legacy d) as [c|]; simpl; auto.
  destruct (processGameData id c _ m) as [m'|] eqn:P; auto.
  apply processGameData_keys in P. rewrite P.
  destruct (map_has id m); auto.
Qed.

(** X26. [loadGamesFromAppIds] never drops or moves a game: the keys the
    collection had stay in front in their order, the keys added behind
    them are appIds of the list, and keys that were distinct stay
    distinct. *)
Theorem loadGamesFromAppIds_keeps_order (apps : list (string * app_replies))
  (gamesData : games_map) :
  exists added,
    map fst (loadGamesFromAppIds apps gamesData) = map fst gamesData ++ added /\
    (forall k, In k added -> In k (map fst apps)) /\
    (NoDup (map fst gamesData) ->
     NoDup (map fst (loadGamesFromAppIds apps gamesData))).
Proof.
  unfold loadGamesFromAppIds. revert gamesData.
  induction apps as [|app apps IH]; simpl; intros m.
  - exists []. rewrite app_nil_r.
    split; [reflexivity|]. split; [intros k []|auto].
  - destruct (IH (load_app m app)) as (added & Hkeys & Hin & Hnd).
    destruct (load_app_keys m app) as [E | [Hnew E]]; rewrite E in Hkeys, Hnd.
    + exists added. repeat split; auto.
    + exists (fst app :: added).
      split; [rewrite Hkeys, <- app_assoc; reflexivity|]. split.
      * intros k [<- | Hk]; auto.
      * intros Hm. apply Hnd.
        assert (Hk : ~ In (fst app) (map fst m)).
        { intros Hk. apply map_has_In in Hk. congruence. }
        clear - Hm Hk. induction (map fst m) as [|x l IHl]; simpl.
        -- repeat constructor. tauto.
        -- inversion Hm; subst. constructor.
           ++ rewrite in_app_iff. simpl in *. intuition congruence.
           ++ apply IHl; [assumption | simpl in Hk; tauto].
Qed.

(** X27. An appId whose achievements cannot be fetched, neither file
    answering ok or a request failing, is skipped: the collection ends as
    if the appId had not been in the list. *)
Theorem failed_app_is_skipped (apps1 apps2 : list (string * app_replies))
  (id : string) (r : app_replies) (gamesData : games_map) :
  (forall body, ach_body r <> Ok (Some body)) ->
  loadGamesFromAppIds (apps1 ++ (id, r) :: apps2) gamesData
  = loadGamesFromAppIds (apps1 ++ apps2) gamesData.
Proof.
  intros Hfail. unfold loadGamesFromAppIds. rewrite !fold_left_app. simpl.
  f_equal. unfold load_app.
  destruct (ach_body r) as [[b|]|]; simpl; try reflexivity.
  exfalso. apply (Hfail b). reflexivity.
Qed.

Lemma fetch_game_info_failed (info : reply) :
  match info with
  | NetworkError => True
  | Response s b => ok s = false \/ JSON_parse b = None
  end ->
  fetch_game_info info = VNull.
Proof.
  destruct info as [|s b]; simpl; [reflexivity|].
  intros [-> | H]; [reflexivity|].
  unfold json. rewrite H. destruct (ok s); reflexivity.
Qed.

(** X28. A game whose [game-info.json] cannot be had (the request fails,
    the answer is not ok or no JSON) is still added, with the default
    metadata: the name [Game] followed by the appId, no icon, [usesDb]
    false and no platform. *)
Theorem missing_game_info_defaults (gamesData : games_map) (id body : string)
  (r : app_replies) (data converted : value) (achs : list achievement) :
  ach_body r = Ok (Some body) ->
  JSON_parse body = Some data ->
  convert_legacy data = Ok converted ->
  build_achievements converted VNull = Ok achs ->
  match game_info_json r with
  | NetworkError => True
  | Response s b => ok s = false \/ JSON_parse b = None
  end ->
  map_get id (load_app gamesData (id, r))
  = Some {| appId := id; gameName := VStr ("Game " ++ id); gameIcon := VStr "";
            achievements := achs; usesDb := VBool false; platform := VNull |}.
Proof.
  intros Hbody Hparse Hconv Hbuild Hinfo. unfold load_app.
  rewrite Hbody. simpl. unfold json. rewrite Hparse. simpl.
  rewrite Hconv. simpl. rewrite (fetch_game_info_failed _ Hinfo).
  unfold processGameData. rewrite Hbuild. simpl. apply map_get_set.
Qed.

End Collection.

Lemma failed_app_is_skipped_witness :
  loadGamesFromAppIds (RT := sample_runtime)
    ([("10", legacy_replies)] ++ ("11", unreachable) :: [("12", legacy_replies)]) []
  = loadGamesFromAppIds (RT := sample_runtime)
      ([("10", legacy_replies)] ++ [("12", legacy_replies)]) [].
Proof.
  apply (@failed_app_is_skipped sample_runtime [("10", legacy_replies)]
           [("12", legacy_replies)] "11" unreachable []).
  intros body. discriminate.
Defined.

Lemma missing_game_info_defaults_witness :
  map_get "10" (load_app (RT := sample_runtime) sample_map ("10", legacy_replies))
  = Some {| appId := "10"; gameName := VStr "Game 10"; gameIcon := VStr "";
            achievements := []; usesDb := VBool false; platform := VNull |}.
Proof.
  apply (@missing_game_info_defaults sample_runtime sample_map "10" "GAMES"
           legacy_replies sample_games (VObj []) []);
    [reflexivity | reflexivity | reflexivity | reflexivity | exact I].
Defined.

(** ** The comparison and the detail view *)

Lemma is_one_truthy (v : value) : is_one v = true -> truthy v = true.
Proof.
  destruct v; simpl; try discriminate.
  unfold PrimFloat.is_nan. rewrite !FloatAxioms.eqb_spec.
  change (Prim2SF 1) with (S754_finite false 4503599627370496 (-52)).
  change (Prim2SF 0) with (S754_zero false).
  intros H.
  destruct (Prim2SF f) as [s|s| |s m e]; try discriminate H;
    try (destruct s; discriminate H).
  destruct s; [discriminate H|].
  unfold SFeqb, SFcompare in H.
  destruct (Z.compare e (-52)) eqn:Ce; try discriminate H.
  apply Z.compare_eq in Ce. subst e.
  destruct (Pos.compare_cont Eq m 4503599627370496) eqn:Cm; try discriminate H.
  apply Pos.compare_eq in Cm. subst m. reflexivity.
Qed.

Lemma theyHave_truthy (a : achievement) :
  theyHave a = true -> truthy (unlocked a) = true.
Proof.
  unfold theyHave. intros H. apply orb_true_iff in H. destruct H as [H | H].
  - destruct (unlocked a); simpl in *; try discriminate. assumption.
  - apply is_one_truthy. assumption.
Qed.

Lemma compare_loop_their_count (own : own_data) (l : list achievement) :
  forall cs, compare_loop own l = Ok cs ->
  count_status "both-unlocked" cs + count_status "they-only" cs
  <= List.length (filter (fun a => truthy (unlocked a)) l).
Proof.
  unfold count_status.
  induction l as [|a l IH]; simpl; intros cs H.
  - inversion H; subst. simpl. lia.
  - bind_inv H. destruct x.
    + specialize (IH _ H). destruct (truthy (unlocked a)); simpl; lia.
    + bind_inv H. bind_inv H. inversion H; subst; clear H.
      specialize (IH _ E1). simpl.
      destruct (theyHave a) eqn:T.
      * rewrite (theyHave_truthy _ T). simpl.
        destruct (youHave x); simpl; lia.
      * destruct (youHave x), (truthy (unlocked a)); simpl; lia.
Qed.

(** X29. The comparison never credits the reference game with more than
    the viewer shows for it: [theirTotal] is at most the number of
    achievements whose [unlocked] is truthy, the count of the grid and
    the detail view. *)
Theorem theirTotal_at_most_unlocked (theirGame : game) (ownData : option own_data)
  (cd : comparison_data) :
  compareAchievements theirGame ownData = Ok cd ->
  theirTotal (getComparisonStats (comparison cd)) <= unlocked_count theirGame.
Proof.
  intros H. unfold unlocked_count. destruct ownData as [own|]; simpl in H.
  - bind_inv H. inversion H; subst; clear H. simpl.
    apply compare_loop_their_count with (own := own). assumption.
  - inversion H; subst. apply Nat.le_0_l.
Qed.

Lemma theirTotal_at_most_unlocked_witness :
  theirTotal
    (getComparisonStats
       (map (fun a => compare_one
                        (get_opt (achievementsData sample_own) (apiname a)) a)
          (compared [VStr "W"] (achievements sample_game))))
  <= unlocked_count sample_game.
Proof.
  apply (@theirTotal_at_most_unlocked sample_game (Some sample_own)
           {| hasData := true;
              comparison :=
                map (fun a => compare_one
                                (get_opt (achievementsData sample_own) (apiname a)) a)
                  (compared [VStr "W"] (achievements sample_game)) |}).
  reflexivity.
Defined.

(** The two can differ: an [unlocked] that is truthy but neither [true]
    nor 1 counts in the viewer and not in the comparison. *)
Example truthy_but_not_theirs :
  let g := {| appId := "10"; gameName := VStr "Game 10"; gameIcon := VStr "";
              achievements := [sample_achievement "X" (VStr "yes")];
              usesDb := VBool false; platform := VNull |} in
  unlocked_count g = 1 /\
  exists cd,
    compareAchievements g (Some {| achievementsData := VObj []; blacklist := VArr [] |})
    = Ok cd /\
    theirTotal (getComparisonStats (comparison cd)) = 0.
Proof. split; [reflexivity|]. eexists. split; reflexivity. Qed.

(** ** The cleaning of the storage *)

Lemma prefix_app (p s : string) :
  String.prefix p s = true -> exists rest, s = (p ++ rest)%string.
Proof.
  revert s. induction p as [|a p IH]; intros s H.
  - exists s. reflexivity.
  - destruct s as [|b s]; simpl in H; [discriminate|].
    destruct (ascii_dec a b) as [<-|]; [|discriminate].
    destruct (IH _ H) as (rest & ->). exists rest. reflexivity.
Qed.

Lemma prefixes_exclusive (key : string) :
  String.prefix "game-data-cache-" key && String.prefix "game-data-last-updated-" key
  = false.
Proof.
  destruct (String.prefix "game-data-cache-" key) eqn:P1; [|reflexivity].
  destruct (String.prefix "game-data-last-updated-" key) eqn:P2; [|reflexivity].
  apply prefix_app in P1, P2. destruct P1 as (r1 & E1), P2 as (r2 & E2).
  rewrite E1 in E2. simpl in E2. discriminate E2.
Qed.

Lemma prefix_not_empty (p key : string) :
  p <> "" -> String.prefix p key = true -> String.eqb key "" = false.
Proof.
  intros Hp H. destruct key; [|reflexivity].
  destruct p; [contradiction | simpl in H; discriminate].
Qed.

Lemma keys_to_remove_foreign (user key : string) :
  keys_to_remove user key = if foreign user key then [key] else [].
Proof.
  unfold keys_to_remove, foreign.
  pose proof (prefixes_exclusive key) as Hx.
  assert (H1 : String.prefix "game-data-cache-" key = true -> String.eqb key "" = false)
    by (apply prefix_not_empty; discriminate).
  assert (H2 : String.prefix "game-data-last-updated-" key = true
               -> String.eqb key "" = false)
    by (apply prefix_not_empty; discriminate).
  destruct (String.prefix "game-data-cache-" key);
    destruct (String.prefix "game-data-last-updated-" key);
    try discriminate Hx;
    try rewrite (H1 eq_refl); try rewrite (H2 eq_refl); simpl;
    repeat match goal with
           | |- context [String.eqb ?a ?b] => destruct (String.eqb a b)
           end;
    reflexivity.
Qed.

Lemma fold_removeItem (keys : list string) :
  forall s,
    fold_left removeItem keys s
    = filter (fun kv => negb (existsb (String.eqb (fst kv)) keys)) s.
Proof.
  induction keys as [|k keys IH]; simpl; intros s.
  - induction s as [|kv s IHs]; simpl; [reflexivity | rewrite <- IHs; reflexivity].
  - rewrite IH. unfold removeItem. clear IH.
    induction s as [|kv s IHs]; simpl; [reflexivity|].
    destruct (String.eqb (fst kv) k); simpl; rewrite IHs; reflexivity.
Qed.

Lemma existsb_keys_to_remove (user key : string) (keys : list string) :
  existsb (String.eqb key) (flat_map (keys_to_remove user) keys)
  = existsb (String.eqb key) keys && foreign user key.
Proof.
  induction keys as [|k keys IH]; simpl; [reflexivity|].
  rewrite existsb_app, IH, keys_to_remove_foreign.
  destruct (String.eqb key k) eqn:K.
  - apply String.eqb_eq in K. subst k.
    destruct (foreign user key); simpl;
      [rewrite String.eqb_refl; reflexivity | rewrite andb_false_r; reflexivity].
  - destruct (foreign user k); simpl; [rewrite K|]; reflexivity.
Qed.

Lemma length_keys_to_remove (user : string) (s : local_storage) :
  List.length (flat_map (keys_to_remove user) (map fst s))
  = List.length (filter (fun kv => foreign user (fst kv)) s).
Proof.
  induction s as [|kv s IH]; simpl; [reflexivity|].
  rewrite length_app, IH, keys_to_remove_foreign.
  destruct (foreign user (fst kv)); reflexivity.
Qed.

Lemma cache_key_not_foreign (user : string) :
  foreign user (cache_key user) = false /\ foreign user (timestamp_key user) = false.
Proof.
  split; unfold foreign; rewrite String.eqb_refl;
    unfold cache_key, timestamp_key; cbn; rewrite ?andb_false_r; reflexivity.
Qed.

(** X30. [cleanOldCaches] removes from the storage the items whose key
    starts with [game-data-cache-] or [game-data-last-updated-] and is
    not the current user's key of that kind, and nothing else: the other
    items stay, in their order, the current user's two items among them.
    [cleaned] is the number of items removed, and cleaning again removes
    nothing. *)
Theorem cleanOldCaches_removes_foreign (user : string) (s : local_storage) :
  let after := fst (cleanOldCaches user s) in
  after = filter (fun kv => negb (foreign user (fst kv))) s /\
  foreign user (cache_key user) = false /\
  foreign user (timestamp_key user) = false /\
  List.length after + snd (cleanOldCaches user s) = List.length s /\
  cleanOldCaches user after = (after, 0).
Proof.
  cbv zeta.
  assert (Hfst : forall s0,
            fst (cleanOldCaches user s0)
            = filter (fun kv => negb (foreign user (fst kv))) s0).
  { intros s0. unfold cleanOldCaches. simpl. rewrite fold_removeItem.
    apply filter_ext_in. intros kv Hkv.
    rewrite existsb_keys_to_remove.
    assert (He : existsb (String.eqb (fst kv)) (map fst s0) = true).
    { apply existsb_exists. exists (fst kv). split;
        [apply in_map; assumption | apply String.eqb_refl]. }
    rewrite He. reflexivity. }
  assert (Hsnd : forall s0,
            snd (cleanOldCaches user s0)
            = List.length (filter (fun kv => foreign user (fst kv)) s0)).
  { intros s0. unfold cleanOldCaches. simpl. apply length_keys_to_remove. }
  destruct (cache_key_not_foreign user) as [Hc Ht].
  split; [apply Hfst|]. split; [assumption|]. split; [assumption|]. split.
  - rewrite Hfst, Hsnd. clear. induction s as [|kv s IH]; simpl; [reflexivity|].
    destruct (foreign user (fst kv)); simpl; lia.
  - rewrite (surjective_pairing (cleanOldCaches user _)). f_equal.
    + rewrite !Hfst. clear. induction s as [|kv s IH]; simpl; [reflexivity|].
      destruct (foreign user (fst kv)) eqn:F; simpl; [assumption|].
      rewrite F. simpl. rewrite IH. reflexivity.
    + rewrite Hsnd, Hfst. clear. induction s as [|kv s IH]; simpl; [reflexivity|].
      destruct (foreign user (fst kv)) eqn:F; simpl; [assumption|].
      rewrite F. assumption.
Qed.

Example cleanOldCaches_sample :
  cleanOldCaches "alice" sample_storage
  = ([("game-data-cache-v2-alice", "GAMES");
      ("forks-cache-v1", "{}");
      ("game-data-last-updated-v2-alice", "1700000050")], 2).
Proof. reflexivity. Qed.
